(** * agent-browse: the browser process lifecycle coordinator

    A shallow embedding of [src/cli.ts] (initBrowser, closeBrowser,
    verifyIsChromeProcess, extract), of [stagehand-tools.ts] (getStagehand and
    the extract tool's schema conversion) and of [browser-utils.ts]
    (findLocalChrome).

    The TypeScript code is asynchronous but strictly sequential (every
    promise is awaited at once), so it is embedded in a state-and-exception
    monad.  Everything the code asks of the outside (fetch, spawn, exec, the
    file system, the Stagehand library) is recorded as an event of a trace,
    and the outcome of each call is decided by an environment that is a
    function of the history so far; theorems quantify over all environments. *)

From stdpp Require Import base option list strings gmap pretty.
From Stdlib Require Import ZArith Lia Ascii String.

Set Warnings "-register-all".

Local Open Scope Z_scope.
Local Open Scope string_scope.
Local Open Scope list_scope.

(** ** JavaScript strings (ASCII fragment) *)

Module JsString.

(** [String.prototype.toLowerCase] on ASCII letters. *)
Definition lowerChar (c : ascii) : ascii :=
  let n := Ascii.N_of_ascii c in
  if ((65 <=? n) && (n <=? 90))%N then Ascii.ascii_of_N (n + 32) else c.

Fixpoint toLowerCase (s : string) : string :=
  match s with
  | EmptyString => EmptyString
  | String c s' => String (lowerChar c) (toLowerCase s')
  end.

(** White space and line terminators of the ASCII range, as [trim] sees
    them: TAB, LF, VT, FF, CR and SPACE. *)
Definition isSpace (c : ascii) : bool :=
  let n := Ascii.N_of_ascii c in
  (((9 <=? n) && (n <=? 13)) || (n =? 32))%N.

Fixpoint trimStart (s : string) : string :=
  match s with
  | EmptyString => EmptyString
  | String c s' => if isSpace c then trimStart s' else s
  end.

(** [trimEnd] drops the trailing white space: a character is kept when
    something that is not white space follows it or it is none itself. *)
Fixpoint trimEnd (s : string) : string :=
  match s with
  | EmptyString => EmptyString
  | String c s' =>
      match trimEnd s' with
      | EmptyString => if isSpace c then EmptyString else String c EmptyString
      | rest => String c rest
      end
  end.

Definition trim (s : string) : string := trimEnd (trimStart s).

Fixpoint startsWith (needle s : string) : bool :=
  match needle, s with
  | EmptyString, _ => true
  | String _ _, EmptyString => false
  | String a needle', String b s' => Ascii.eqb a b && startsWith needle' s'
  end.

(** [s.includes(needle)]: [needle] occurs somewhere in [s]. *)
Fixpoint includes (needle s : string) : bool :=
  startsWith needle s ||
  match s with
  | EmptyString => false
  | String _ s' => includes needle s'
  end.

(** [s.endsWith(needle)] *)
Fixpoint endsWith (needle s : string) : bool :=
  match s with
  | EmptyString => String.eqb needle EmptyString
  | String _ s' => String.eqb needle s || endsWith needle s'
  end.

(** A template literal prints an undefined value as the word itself. *)
Definition interpolate (v : option string) : string :=
  match v with Some s => s | None => "undefined" end.

(** A string is truthy when it is defined and not empty. *)
Definition truthy (v : option string) : bool :=
  match v with Some (String _ _) => true | _ => false end.

End JsString.

(** ** Values exchanged with the outside *)

(** JSON documents; numbers are the integers the program writes. *)
Inductive Json : Type :=
| JNull
| JBool (b : bool)
| JNum (n : Z)
| JStr (s : string)
| JArr (items : list Json)
| JObj (fields : list (string * Json)).

(** A JavaScript value that came out of JSON, or [undefined] ([None]). *)
Definition JsVal : Type := option Json.

Fixpoint assoc (k : string) (fields : list (string * Json)) : JsVal :=
  match fields with
  | [] => None
  | (k', v) :: rest => if String.eqb k k' then Some v else assoc k rest
  end.

(** [const { pid } = pidData]: reading a property of [null] is a TypeError
    (the outer [None]); a primitive or an array has no such property. *)
Definition destructure_pid (pidData : Json) : option JsVal :=
  match pidData with
  | JNull => None
  | JObj fields => Some (assoc "pid" fields)
  | _ => Some None
  end.

Inductive Platform : Type := darwin | linux | win32 | other_platform.

Inductive Signal : Type := SIGTERM | SIGKILL.

Inductive StdioMode : Type := ignore | pipe.

(** The [stdio] option of [spawn]: one word for the three streams, or an
    array with one entry per stream. *)
Inductive StdioOpt : Type :=
| StdioAll (m : StdioMode)
| StdioEach (stdin stdout stderr : StdioMode).

Definition stdio_streams (o : StdioOpt) : StdioMode * StdioMode * StdioMode :=
  match o with
  | StdioAll m => (m, m, m)
  | StdioEach i o e => (i, o, e)
  end.

(** Options given to [new Stagehand]. *)
Record StagehandConfig : Type := {
  cfg_env : string;
  cfg_verbose : Z;
  cfg_enableCaching : option bool;
  cfg_modelName : option string;
  cfg_cdpUrl : string
}.

(** A Stagehand object: its options, and the length of the history when it
    was constructed, which tells two objects with equal options apart. *)
Record Stagehand : Type := {
  sh_config : StagehandConfig;
  sh_born : nat
}.

Inductive Page : Type := PageOf (owner : Stagehand).

Record ChildProcess : Type := {
  child_pid : option Z;
  child_born : nat
}.

(** Validators built by the extract command. *)
Inductive ZodType : Type := z_string | z_number | z_boolean.

Global Instance ZodType_eq_dec : EqDecision ZodType.
Proof. solve_decision. Defined.

(** Shell commands run through [exec], with the interpolated value. *)
Inductive Command : Type :=
| CmdPs (pid : JsVal)          (* ps -p ${pid} -o comm= *)
| CmdTasklist (pid : JsVal)    (* tasklist /FI "PID eq ${pid}" /FO CSV /NH *)
| CmdTaskkill (pid : JsVal).   (* taskkill /PID ${pid} /F *)

Inductive Stream : Type := child_stdout | child_stderr | child_itself.

(** Calls that leave the program. *)
Inductive Event : Type :=
| EvFetch (url : string) (timeout : option Z)
| EvSpawn (path : string) (args : list string) (stdio : StdioOpt) (detached : bool)
| EvListen (on : Stream) (event : string)
| EvWriteFileSync (path : string) (data : Json)
| EvReadFileSync (path : string)
| EvUnlinkSync (path : string)
| EvMkdirSync (path : string)
| EvSleep (ms : Z)
| EvConsoleError (label : string)
| EvNewStagehand (cfg : StagehandConfig)
| EvStagehandInit (sh : Stagehand)
| EvStagehandClose (sh : Stagehand)
| EvChildKill (child : ChildProcess) (sig : option Signal)
| EvProcessKill (pid : JsVal) (sig : Signal)
| EvExec (cmd : Command)
| EvPageEvaluate (p : Page)
| EvPageContext (p : Page)
| EvNewCDPSession (p : Page)
| EvSetDownloadBehavior (downloadPath : string)
| EvPageExtract (p : Page) (instruction : string) (schema : gmap string ZodType)
| EvTakeScreenshot (p : Page).

(** What is on disk at the ledger's path: text that [JSON.parse] rejects, or
    a document. *)
Inductive FileContent : Type :=
| Malformed
| Document (j : Json).

(** The environment of one invocation.  The oracles that take a history are
    asked with the history that ends with the call in question. *)
Record Env : Type := {
  platform : Platform;
  getenv : string → option string;
  cwd : string;
  path_exists : string → bool;
  throws : list Event → bool;
  response_ok : list Event → bool;
  spawned_pid : list Event → option Z;
  exec_stdout : list Event → string;
  exit_code_null : list Event → bool;
  date_now : list Event → Z
}.

Inductive Exn : Type :=
| Error (msg : string)
| TypeError
| SyntaxError
| Rejected (call : Event).

Inductive Res (A : Type) : Type :=
| Ok (a : A)
| Throw (e : Exn).
Arguments Ok {A} a.
Arguments Throw {A} e.

(** The state of one invocation: the module's global variables, the ledger
    file and the history of calls. *)
Record World (G : Type) : Type := {
  globals : G;
  pidFile : option FileContent;
  trace : list Event
}.
Arguments globals {G} w.
Arguments pidFile {G} w.
Arguments trace {G} w.
Arguments Build_World {G} globals pidFile trace.

Definition M (G A : Type) : Type := World G → Res A * World G.

Global Instance M_ret {G} : MRet (M G) := λ A a w, (Ok a, w).

Global Instance M_bind {G} : MBind (M G) := λ A B f m w,
  match m w with
  | (Ok a, w') => f a w'
  | (Throw e, w') => (Throw e, w')
  end.

Section Primitives.
Context {G : Type}.

Definition throw {A} (e : Exn) : M G A := λ w, (Throw e, w).

(** [try { body } catch (e) { handler }] *)
Definition try_catch {A} (body : M G A) (handler : Exn → M G A) : M G A := λ w,
  match body w with
  | (Ok a, w') => (Ok a, w')
  | (Throw e, w') => handler e w'
  end.

(** [try { body } finally { cleanup }]: the cleanup always runs; when it
    throws, its exception replaces the outcome of the body. *)
Definition try_finally {A} (body : M G A) (cleanup : M G ()) : M G A := λ w,
  match body w with
  | (r, w') =>
      match cleanup w' with
      | (Ok _, w'') => (r, w'')
      | (Throw e, w'') => (Throw e, w'')
      end
  end.

Definition get : M G G := λ w, (Ok (globals w), w).

Definition modify (f : G → G) : M G () := λ w,
  (Ok (), Build_World (f (globals w)) (pidFile w) (trace w)).

Definition history : M G (list Event) := λ w, (Ok (trace w), w).

Definition get_file : M G (option FileContent) := λ w, (Ok (pidFile w), w).

Definition set_file (c : option FileContent) : M G () := λ w,
  (Ok (), Build_World (globals w) c (trace w)).

Definition record_event (e : Event) (w : World G) : World G :=
  Build_World (globals w) (pidFile w) (trace w ++ [e]).

(** A call that cannot fail (a timer, a line on the console). *)
Definition emit_quiet (e : Event) : M G () := λ w, (Ok (), record_event e w).

Variable env : Env.

(** A call that the environment may make throw (or reject). *)
Definition emit (e : Event) : M G () := λ w,
  let w' := record_event e w in
  if throws env (trace w') then (Throw (Rejected e), w') else (Ok (), w').

Definition sleep (ms : Z) : M G () := emit_quiet (EvSleep ms).

Definition console_error (label : string) : M G () := emit_quiet (EvConsoleError label).

(** [exec(cmd)], giving its standard output. *)
Definition exec (cmd : Command) : M G string :=
  emit (EvExec cmd);; h ← history; mret (exec_stdout env h).

(** The path of [join(process.cwd(), ...)]: the directory, the separator
    of the platform and the name.  The separator is not doubled after a
    directory that ends with it, as the root does; the working directory
    needs no other normalisation of [path.join]. *)
Definition sep : string :=
  match platform env with win32 => "\" | _ => "/" end.

Definition join (dir name : string) : string :=
  if JsString.endsWith sep dir then dir +:+ name else dir +:+ sep +:+ name.

Definition pidFilePath : string := join (cwd env) ".chrome-pid".

(** [existsSync] of the ledger's path. *)
Definition ledger_exists : M G bool :=
  f ← get_file; mret (bool_decide (is_Some f)).

(** [writeFileSync(pidFilePath, JSON.stringify(doc))]; a failed write
    leaves the file as it was. *)
Definition write_ledger (doc : Json) : M G () :=
  emit (EvWriteFileSync pidFilePath doc);;
  set_file (Some (Document doc)).

(** [JSON.parse(readFileSync(pidFilePath, 'utf8'))] *)
Definition read_ledger : M G Json :=
  emit (EvReadFileSync pidFilePath);;
  f ← get_file;
  match f with
  | Some (Document j) => mret j
  | Some Malformed => throw SyntaxError
  | None => throw (Rejected (EvReadFileSync pidFilePath))
  end.

(** [unlinkSync(pidFilePath)]; a failed deletion leaves the file. *)
Definition unlink_ledger : M G () :=
  emit (EvUnlinkSync pidFilePath);;
  set_file None.

Definition cdpPort : Z := 9222.

Definition version_url : string := "http://127.0.0.1:" +:+ pretty cdpPort +:+ "/json/version".

(** [(await fetch(version_url, ...)).ok] *)
Definition fetch_ok (timeout : option Z) : M G bool :=
  emit (EvFetch version_url timeout);; h ← history; mret (response_ok env h).

(** [new Stagehand(cfg)] *)
Definition new_Stagehand (cfg : StagehandConfig) : M G Stagehand :=
  h ← history;
  emit (EvNewStagehand cfg);;
  mret {| sh_config := cfg; sh_born := List.length h |}.

(** [spawn(path, args, { stdio, detached })] *)
Definition spawn (path : string) (args : list string) (stdio : StdioOpt) (detached : bool)
  : M G ChildProcess :=
  emit (EvSpawn path args stdio detached);;
  h ← history;
  mret {| child_pid := spawned_pid env h; child_born := List.length h |}.

(** [async function verifyIsChromeProcess(pid)] (cli.ts) *)
Definition verifyIsChromeProcess (pid : JsVal) : M G bool :=
  try_catch
    (match platform env with
     | darwin | linux =>
         stdout ← exec (CmdPs pid);
         let processName := JsString.toLowerCase (JsString.trim stdout) in
         mret (JsString.includes "chrome" processName || JsString.includes "chromium" processName)
     | win32 =>
         stdout ← exec (CmdTasklist pid);
         mret (JsString.includes "chrome" (JsString.toLowerCase stdout))
     | other_platform => mret false
     end)
    (λ _, mret false).

End Primitives.

(** ** browser-utils.ts *)

Section BrowserUtils.
Variable env : Env.

Definition env_var (name : string) : string := JsString.interpolate (getenv env name).

(** The candidate paths of [findLocalChrome], by platform. *)
Definition chromePaths : list string :=
  match platform env with
  | darwin =>
      [ "/Applications/Google Chrome.app/Contents/MacOS/Google Chrome";
        "/Applications/Chromium.app/Contents/MacOS/Chromium";
        env_var "HOME" +:+ "/Applications/Google Chrome.app/Contents/MacOS/Google Chrome";
        env_var "HOME" +:+ "/Applications/Chromium.app/Contents/MacOS/Chromium" ]
  | win32 =>
      [ "C:\Program Files\Google\Chrome\Application\chrome.exe";
        "C:\Program Files (x86)\Google\Chrome\Application\chrome.exe";
        env_var "LOCALAPPDATA" +:+ "\Google\Chrome\Application\chrome.exe";
        env_var "PROGRAMFILES" +:+ "\Google\Chrome\Application\chrome.exe";
        env_var "PROGRAMFILES(X86)" +:+ "\Google\Chrome\Application\chrome.exe";
        "C:\Program Files\Chromium\Application\chrome.exe";
        "C:\Program Files (x86)\Chromium\Application\chrome.exe" ]
  | _ =>
      [ "/usr/bin/google-chrome";
        "/usr/bin/google-chrome-stable";
        "/usr/bin/chromium";
        "/usr/bin/chromium-browser";
        "/snap/bin/chromium";
        "/usr/local/bin/google-chrome";
        "/usr/local/bin/chromium";
        "/opt/google/chrome/chrome";
        "/opt/google/chrome/google-chrome" ]
  end.

(** [findLocalChrome()]: the first candidate that exists. *)
Definition findLocalChrome : option string :=
  List.find (λ path, JsString.truthy (Some path) && path_exists env path) chromePaths.

End BrowserUtils.

(** ** The schema conversion of the extract command

    cli.ts (extract) and stagehand-tools.ts (the extract tool) hold the same
    loop over [Object.entries(schema)]. *)

Definition index_entries (items : list Json) : list (string * Json) :=
  imap (λ i v, (pretty i, v)) items.

Definition char_entries (s : string) : list (string * Json) :=
  index_entries ((λ c, JStr (String c EmptyString)) <$> list_ascii_of_string s).

(** [Object.entries(schema)]: own enumerable properties; [null] throws. *)
Definition object_entries (schema : Json) : option (list (string * Json)) :=
  match schema with
  | JNull => None
  | JObj fields => Some fields
  | JArr items => Some (index_entries items)
  | JStr s => Some (char_entries s)
  | JBool _ | JNum _ => Some []
  end.

(** The [switch (type)]: three cases, no default. *)
Definition zod_of (type : Json) : option ZodType :=
  match type with
  | JStr s =>
      if String.eqb s "string" then Some z_string
      else if String.eqb s "number" then Some z_number
      else if String.eqb s "boolean" then Some z_boolean
      else None
  | _ => None
  end.

(** [zodSchema[key] = v] on a plain object: the key [__proto__] reaches the
    prototype setter and adds no property.  The setter also makes [v] the
    prototype of [zodSchema]; what a later assignment then meets on that
    prototype is decided by the classes of zod, which are not part of this
    repository, and is not modelled: what is proved about the validators of
    other fields assumes that no such assignment happens
    ([plain_prototype]). *)
Definition set_property (key : string) (v : ZodType) (o : gmap string ZodType)
  : gmap string ZodType :=
  if String.eqb key "__proto__" then o else <[key := v]> o.

Definition convert_field (zodSchema : gmap string ZodType) (entry : string * Json)
  : gmap string ZodType :=
  match zod_of entry.2 with
  | Some v => set_property entry.1 v zodSchema
  | None => zodSchema
  end.

Definition toZodSchema (entries : list (string * Json)) : gmap string ZodType :=
  foldl convert_field ∅ entries.

(** The result a CLI command prints (its message and screenshot path are
    left out). *)
Inductive CommandResult : Type :=
| success
| failure (error : Exn).

(** What [initBrowser] and [getStagehand] return. *)
Record Session : Type := {
  stagehand : option Stagehand;
  page : option Page
}.

(** ** src/cli.ts *)

Module Cli.

(** The module's variables. *)
Record Globals : Type := {
  stagehandInstance : option Stagehand;
  currentPage : option Page;
  chromeProcess : option ChildProcess;
  weStartedChrome : bool
}.

Definition initial : Globals :=
  {| stagehandInstance := None; currentPage := None;
     chromeProcess := None; weStartedChrome := false |}.

Definition set_stagehandInstance (v : option Stagehand) (g : Globals) : Globals :=
  {| stagehandInstance := v; currentPage := currentPage g;
     chromeProcess := chromeProcess g; weStartedChrome := weStartedChrome g |}.

Definition set_currentPage (v : option Page) (g : Globals) : Globals :=
  {| stagehandInstance := stagehandInstance g; currentPage := v;
     chromeProcess := chromeProcess g; weStartedChrome := weStartedChrome g |}.

Definition set_chromeProcess (v : option ChildProcess) (g : Globals) : Globals :=
  {| stagehandInstance := stagehandInstance g; currentPage := currentPage g;
     chromeProcess := v; weStartedChrome := weStartedChrome g |}.

Definition set_weStartedChrome (v : bool) (g : Globals) : Globals :=
  {| stagehandInstance := stagehandInstance g; currentPage := currentPage g;
     chromeProcess := chromeProcess g; weStartedChrome := v |}.

Abbreviation Prog := (M Globals).

Section Program.
Variable env : Env.

Definition haiku : string := "anthropic/claude-haiku-4-5-20251001".

Definition chromeArgs (tempUserDataDir : string) : list string :=
  [ "--remote-debugging-port=" +:+ pretty cdpPort;
    "--user-data-dir=" +:+ tempUserDataDir;
    "--window-position=-9999,-9999";
    "--window-size=1280,720" ].

(** The body of [for (let i = 0; i < 50; i++)], with [remaining = 50 - i].
    The result is [chromeReady]. *)
Fixpoint waitForChrome (remaining : nat) : Prog bool :=
  match remaining with
  | O => mret false
  | S remaining' =>
      ready ← try_catch
                (ok ← fetch_ok env None;
                 if ok : bool
                 then modify (set_weStartedChrome true);; mret true
                 else mret false)
                (λ _, mret false);
      if ready : bool then mret true
      else sleep 300;; waitForChrome remaining'
  end.

(** [while (retries < 30)] around [currentPage.evaluate], with
    [fuel = 30 - retries]; the result is the final [retries]. *)
Fixpoint waitForPage (fuel retries : nat) (p : Page) : Prog nat :=
  match fuel with
  | O => mret retries
  | S fuel' =>
      done ← try_catch
               (emit env (EvPageEvaluate p);; mret true)
               (λ _, sleep 100;; mret false);
      if done : bool then mret retries
      else waitForPage fuel' (S retries) p
  end.

(** [{ pid: chromeProcess.pid, startTime: Date.now() }] *)
Definition ledger_entry (pid now : Z) : Json :=
  JObj [("pid", JNum pid); ("startTime", JNum now)].

(** [if (chromeProcess.pid) writeFileSync(pidFilePath, ...)] *)
Definition storePid (child : ChildProcess) : Prog () :=
  match child_pid child with
  | Some pid =>
      if (pid =? 0)%Z then mret ()
      else
        h ← history;
        write_ledger env (ledger_entry pid (date_now env h))
  | None => mret ()
  end.

(** The block under [if (!chromeReady)]: launch, record, wait.  The control
    flow is that of the function.  When the launch fails, the child has no
    process id and Node emits ['error'] on it, for which cli.ts attaches no
    listener; that event is outside this model, and what is proved about the
    outcome of the wait assumes a child with a process id
    ([child_has_pid]). *)
Definition launchChrome (chromePath tempUserDataDir : string) : Prog bool :=
  child ← spawn env chromePath (chromeArgs tempUserDataDir) (StdioAll ignore) false;
  modify (set_chromeProcess (Some child));;
  storePid child;;
  chromeReady ← waitForChrome 50;
  if chromeReady : bool then mret true
  else throw (Error "Chrome failed to start").

Definition configureDownloads (p : Page) : Prog () :=
  let downloadsPath := join env (join env (cwd env) "agent") "downloads" in
  (if path_exists env downloadsPath then mret ()
   else emit env (EvMkdirSync downloadsPath));;
  emit env (EvPageContext p);;
  emit env (EvNewCDPSession p);;
  emit env (EvSetDownloadBehavior downloadsPath).

(** The rest of [initBrowser], from [// Initialize Stagehand] on. *)
Definition connectStagehand : Prog Session :=
  sh ← new_Stagehand env
         {| cfg_env := "LOCAL"; cfg_verbose := 0; cfg_enableCaching := None;
            cfg_modelName := Some haiku;
            cfg_cdpUrl := "http://localhost:" +:+ pretty cdpPort |};
  modify (set_stagehandInstance (Some sh));;
  emit env (EvStagehandInit sh);;
  modify (set_currentPage (Some (PageOf sh)));;
  waitForPage 30 0 (PageOf sh);;
  configureDownloads (PageOf sh);;
  g ← get;
  mret {| stagehand := stagehandInstance g; page := currentPage g |}.

(** [async function initBrowser()] *)
Definition initBrowser : Prog Session :=
  g ← get;
  if stagehandInstance g is Some _ then
    mret {| stagehand := stagehandInstance g; page := currentPage g |}
  else
    let chromePath := findLocalChrome env in
    if negb (JsString.truthy chromePath) then
      throw (Error "Could not find Chrome installation")
    else
      let chromePath := default "" chromePath in
      let tempUserDataDir := join env (cwd env) ".chrome-profile" in
      chromeReady ← try_catch
                      (ok ← fetch_ok env None;
                       if ok : bool
                       then console_error "Reusing existing Chrome instance on port";;
                            mret true
                       else mret false)
                      (λ _, mret false);
      (if chromeReady : bool then mret true
       else launchChrome chromePath tempUserDataDir);;
      connectStagehand.

(** [process.kill(pid, 'SIGKILL')], or [taskkill /PID pid /F] on
    Windows. *)
Definition forceKill (pid : JsVal) : Prog () :=
  match platform env with
  | win32 => emit env (EvExec (CmdTaskkill pid))
  | _ => emit env (EvProcessKill pid SIGKILL)
  end.

(** Step 3 of [closeBrowser]: the ledger, when it exists. *)
Definition killFromLedger : Prog () :=
  present ← ledger_exists;
  if present : bool then
    pidData ← read_ledger env;
    match destructure_pid pidData with
    | None => throw TypeError
    | Some pid =>
        isChrome ← verifyIsChromeProcess env pid;
        if isChrome : bool then forceKill pid else mret ()
    end
  else mret ().

(** The body of the [try] of [closeBrowser]. *)
Definition gracefulThenForce : Prog () :=
  ok ← fetch_ok env (Some 2000);
  if ok : bool then
    tempStagehand ← new_Stagehand env
                      {| cfg_env := "LOCAL"; cfg_verbose := 0;
                         cfg_enableCaching := Some true;
                         cfg_modelName := Some haiku;
                         cfg_cdpUrl := "http://localhost:" +:+ pretty cdpPort |};
    emit env (EvStagehandInit tempStagehand);;
    emit env (EvStagehandClose tempStagehand);;
    sleep 2000;;
    try_catch
      (stillUp ← fetch_ok env (Some 1000);
       if stillUp : bool then killFromLedger else mret ())
      (λ _, mret ())
  else mret ().

(** The first block of [closeBrowser]: the instance of this process. *)
Definition closeOwnInstance : Prog () :=
  g ← get;
  match stagehandInstance g with
  | Some sh =>
      try_catch (emit env (EvStagehandClose sh))
                (λ _, console_error "Error closing Stagehand:");;
      modify (set_stagehandInstance None);;
      modify (set_currentPage None)
  | None => mret ()
  end.

(** The second block: the child this process started. *)
Definition killOwnChild : Prog () :=
  g ← get;
  match chromeProcess g with
  | Some child =>
      if weStartedChrome g then
        try_catch
          (emit env (EvChildKill child (Some SIGTERM));;
           sleep 1000;;
           h ← history;
           if exit_code_null env h
           then emit env (EvChildKill child (Some SIGKILL))
           else mret ())
          (λ _, console_error "Error killing Chrome process:");;
        modify (set_chromeProcess None);;
        modify (set_weStartedChrome false)
      else mret ()
  | None => mret ()
  end.

(** The [finally] block. *)
Definition cleanupPidFile : Prog () :=
  present ← ledger_exists;
  if present : bool then try_catch (unlink_ledger env) (λ _, mret ())
  else mret ().

(** [async function closeBrowser()] *)
Definition closeBrowser : Prog () :=
  closeOwnInstance;;
  killOwnChild;;
  try_finally
    (try_catch gracefulThenForce (λ _, mret ()))
    cleanupPidFile.

(** [async function extract(instruction, schema)] *)
Definition extract (instruction : string) (schema : Json) : Prog CommandResult :=
  try_catch
    (s ← initBrowser;
     match object_entries schema, page s with
     | Some entries, Some page =>
         emit env (EvPageExtract page instruction (toZodSchema entries));;
         emit env (EvTakeScreenshot page);;
         mret success
     | _, _ => throw TypeError
     end)
    (λ error, mret (failure error)).

End Program.
End Cli.

(** ** stagehand-tools.ts *)

Module Tools.

Record Globals : Type := {
  stagehandInstance : option Stagehand;
  currentPage : option Page;
  chromeProcess : option ChildProcess;
  tempUserDataDir : option string
}.

Definition initial : Globals :=
  {| stagehandInstance := None; currentPage := None;
     chromeProcess := None; tempUserDataDir := None |}.

Definition set_stagehandInstance (v : option Stagehand) (g : Globals) : Globals :=
  {| stagehandInstance := v; currentPage := currentPage g;
     chromeProcess := chromeProcess g; tempUserDataDir := tempUserDataDir g |}.

Definition set_currentPage (v : option Page) (g : Globals) : Globals :=
  {| stagehandInstance := stagehandInstance g; currentPage := v;
     chromeProcess := chromeProcess g; tempUserDataDir := tempUserDataDir g |}.

Definition set_chromeProcess (v : option ChildProcess) (g : Globals) : Globals :=
  {| stagehandInstance := stagehandInstance g; currentPage := currentPage g;
     chromeProcess := v; tempUserDataDir := tempUserDataDir g |}.

Definition set_tempUserDataDir (v : option string) (g : Globals) : Globals :=
  {| stagehandInstance := stagehandInstance g; currentPage := currentPage g;
     chromeProcess := chromeProcess g; tempUserDataDir := v |}.

Abbreviation Prog := (M Globals).

Section Program.
Variable env : Env.

Definition installHelp : string :=
  "Could not find local Chrome installation. Please install Chrome or Chromium for your platform:
- macOS: Install Google Chrome from https://www.google.com/chrome/
- Windows: Install Google Chrome from https://www.google.com/chrome/
- Linux: Run 'sudo apt install google-chrome-stable' or 'sudo apt install chromium-browser'".

(** [for (let i = 0; i < 50; i++)], with [remaining = 50 - i]. *)
Fixpoint waitForChrome (remaining : nat) : Prog bool :=
  match remaining with
  | O => mret false
  | S remaining' =>
      ready ← try_catch (fetch_ok env None) (λ _, mret false);
      if ready : bool then mret true
      else sleep 300;; waitForChrome remaining'
  end.

(** [while (retries < maxRetries)], with [fuel = maxRetries - retries]. *)
Fixpoint waitForPage (fuel retries : nat) (p : Page) : Prog nat :=
  match fuel with
  | O => mret retries
  | S fuel' =>
      done ← try_catch
               (emit env (EvPageEvaluate p);; mret true)
               (λ _, sleep 100;; mret false);
      if done : bool then mret retries
      else waitForPage fuel' (S retries) p
  end.

Definition configureDownloads (p : Page) : Prog () :=
  let downloadsPath := join env (join env (cwd env) "agent") "downloads" in
  (if path_exists env downloadsPath then mret ()
   else emit env (EvMkdirSync downloadsPath));;
  emit env (EvPageContext p);;
  emit env (EvNewCDPSession p);;
  emit env (EvSetDownloadBehavior downloadsPath).

(** The block under [if (!stagehandInstance)]. *)
Definition launchAndConnect : Prog () :=
  let chromePath := findLocalChrome env in
  if negb (JsString.truthy chromePath) then throw (Error installHelp)
  else
    let chromePath := default "" chromePath in
    let dir := join env (cwd env) ".chrome-profile" in
    modify (set_tempUserDataDir (Some dir));;
    let chromeArgs := [ "--remote-debugging-port=" +:+ pretty cdpPort;
                        "--user-data-dir=" +:+ dir ] in
    child ← spawn env chromePath chromeArgs (StdioEach ignore pipe pipe) false;
    modify (set_chromeProcess (Some child));;
    emit_quiet (EvListen child_stdout "data");;
    emit_quiet (EvListen child_stderr "data");;
    emit_quiet (EvListen child_itself "error");;
    chromeReady ← waitForChrome 50;
    if negb chromeReady then
      throw (Error ("Chrome failed to start with remote debugging on port "
                    +:+ pretty cdpPort))
    else
      sh ← new_Stagehand env
             {| cfg_env := "LOCAL"; cfg_verbose := 0; cfg_enableCaching := Some true;
                cfg_modelName := None;
                cfg_cdpUrl := "http://localhost:" +:+ pretty cdpPort |};
      modify (set_stagehandInstance (Some sh));;
      emit env (EvStagehandInit sh);;
      modify (set_currentPage (Some (PageOf sh)));;
      retries ← waitForPage 30 0 (PageOf sh);
      if (30 <=? retries)%nat then
        throw (Error "Browser failed to become ready within timeout")
      else configureDownloads (PageOf sh).

(** [async function getStagehand()] *)
Definition getStagehand : Prog Session :=
  g ← get;
  (if stagehandInstance g is Some _ then mret () else launchAndConnect);;
  g ← get;
  mret {| stagehand := stagehandInstance g; page := currentPage g |}.

(** The handler of the [extract] tool. *)
Definition extract (instruction : string) (schema : Json) : Prog CommandResult :=
  try_catch
    (s ← getStagehand;
     match object_entries schema, page s with
     | Some entries, Some page =>
         emit env (EvPageExtract page instruction (toZodSchema entries));;
         mret success
     | _, _ => throw TypeError
     end)
    (λ error, mret (failure error)).

(** [async function closeStagehand()] *)
Definition closeStagehand : Prog () :=
  g ← get;
  match stagehandInstance g with
  | Some sh =>
      emit env (EvStagehandClose sh);;
      modify (set_stagehandInstance None);;
      modify (set_currentPage None)
  | None => mret ()
  end;;
  g ← get;
  match chromeProcess g with
  | Some child =>
      emit env (EvChildKill child None);;
      modify (set_chromeProcess None)
  | None => mret ()
  end;;
  modify (set_tempUserDataDir None).

(** The handler of the [close_browser] tool. *)
Definition close_browser : Prog CommandResult :=
  try_catch (closeStagehand;; mret success) (λ error, mret (failure error)).

End Program.
End Tools.

(** ** Assertions about programs *)

Section Assertions.
Context {G : Type}.

(** [hoare P m Q]: from a world that satisfies [P], [m] ends (with a
    value or an exception) in a world that satisfies [Q]. *)
Definition hoare {A} (P : World G → Prop) (m : M G A) (Q : Res A → World G → Prop) : Prop :=
  ∀ w, P w → Q (m w).1 (m w).2.

(** [preserves I m]: the invariant [I] survives [m], whatever its
    outcome. *)
Definition preserves {A} (I : World G → Prop) (m : M G A) : Prop :=
  hoare I m (λ _ w, I w).

Definition is_Ok {A} (r : Res A) : Prop :=
  match r with Ok _ => True | Throw _ => False end.

(** [never_throws m]: [m] returns normally from every world. *)
Definition never_throws {A} (m : M G A) : Prop :=
  hoare (λ _, True) m (λ r _, is_Ok r).

(** [extends base good w]: the history of [w] is [base] followed by events
    that are all [good]. *)
Definition extends (base : list Event) (good : Event → bool) (w : World G) : Prop :=
  ∃ added, trace w = base ++ added ∧ forallb good added = true.

End Assertions.

(** The ledger is already gone, or deleting it cannot fail. *)
Definition deletable (env : Env) (w : World Cli.Globals) : Prop :=
  pidFile w = None ∨ ∀ h, throws env (h ++ [EvUnlinkSync (pidFilePath env)]) = false.

(** The look-up that [verifyIsChromeProcess] runs on each platform. *)
Definition lookup_command (p : Platform) (pid : JsVal) : option Command :=
  match p with
  | darwin | linux => Some (CmdPs pid)
  | win32 => Some (CmdTasklist pid)
  | other_platform => None
  end.

(** *** Concrete environments and worlds *)

(** A Linux machine with Chrome installed, where no call fails, nothing
    answers on the control port, and the process table knows no name. *)
Definition quiet_env : Env :=
  {| platform := linux;
     getenv := λ _, None;
     cwd := "/work";
     path_exists := λ p, String.eqb p "/usr/bin/google-chrome";
     throws := λ _, false;
     response_ok := λ _, false;
     spawned_pid := λ _, Some 4242;
     exec_stdout := λ _, "";
     exit_code_null := λ _, true;
     date_now := λ _, 1700000000000 |}.

Definition with_throws (f : list Event → bool) (env : Env) : Env :=
  {| platform := platform env; getenv := getenv env; cwd := cwd env;
     path_exists := path_exists env; throws := f;
     response_ok := response_ok env; spawned_pid := spawned_pid env;
     exec_stdout := exec_stdout env; exit_code_null := exit_code_null env;
     date_now := date_now env |}.

Definition with_response_ok (f : list Event → bool) (env : Env) : Env :=
  {| platform := platform env; getenv := getenv env; cwd := cwd env;
     path_exists := path_exists env; throws := throws env;
     response_ok := f; spawned_pid := spawned_pid env;
     exec_stdout := exec_stdout env; exit_code_null := exit_code_null env;
     date_now := date_now env |}.

Definition with_spawned_pid (f : list Event → option Z) (env : Env) : Env :=
  {| platform := platform env; getenv := getenv env; cwd := cwd env;
     path_exists := path_exists env; throws := throws env;
     response_ok := response_ok env; spawned_pid := f;
     exec_stdout := exec_stdout env; exit_code_null := exit_code_null env;
     date_now := date_now env |}.

Definition with_exec_stdout (f : list Event → string) (env : Env) : Env :=
  {| platform := platform env; getenv := getenv env; cwd := cwd env;
     path_exists := path_exists env; throws := throws env;
     response_ok := response_ok env; spawned_pid := spawned_pid env;
     exec_stdout := f; exit_code_null := exit_code_null env;
     date_now := date_now env |}.

(** The world at the start of an invocation of the CLI. *)
Definition fresh (ledger : option FileContent) : World Cli.Globals :=
  {| globals := Cli.initial; pidFile := ledger; trace := [] |}.

Definition fresh_tools : World Tools.Globals :=
  {| globals := Tools.initial; pidFile := None; trace := [] |}.

(** The entry that an earlier invocation left for process 4242. *)
Definition ledger_4242 : Json := Cli.ledger_entry 4242 1700000000000.

(** Every [unlinkSync] fails (a directory that cannot be written). *)
Definition unlink_fails (h : list Event) : bool :=
  match last h with
  | Some (EvUnlinkSync _) => true
  | _ => false
  end.

(** Every [exec] fails. *)
Definition exec_fails (h : list Event) : bool :=
  match last h with
  | Some (EvExec _) => true
  | _ => false
  end.

(** The session [s] is the one held in the module's variables, and its
    control handle is set. *)
Definition cli_memoized (s : Session) (w : World Cli.Globals) : Prop :=
  is_Some (Cli.stagehandInstance (globals w)) ∧
  s = {| stagehand := Cli.stagehandInstance (globals w);
         page := Cli.currentPage (globals w) |}.

Definition tools_memoized (s : Session) (w : World Tools.Globals) : Prop :=
  is_Some (Tools.stagehandInstance (globals w)) ∧
  s = {| stagehand := Tools.stagehandInstance (globals w);
         page := Tools.currentPage (globals w) |}.

(** A world of the CLI that already holds a control handle. *)
Definition connected_stagehand : Stagehand :=
  {| sh_config := {| cfg_env := "LOCAL"; cfg_verbose := 0; cfg_enableCaching := None;
                     cfg_modelName := Some Cli.haiku;
                     cfg_cdpUrl := "http://localhost:9222" |};
     sh_born := 1 |}.

Definition connected : World Cli.Globals :=
  {| globals := {| Cli.stagehandInstance := Some connected_stagehand;
                   Cli.currentPage := Some (PageOf connected_stagehand);
                   Cli.chromeProcess := None;
                   Cli.weStartedChrome := false |};
     pidFile := None;
     trace := [EvFetch "http://127.0.0.1:9222/json/version" None] |}.

(** *** Kinds of events *)

Definition is_spawn (e : Event) : bool :=
  match e with EvSpawn _ _ _ _ => true | _ => false end.

Definition is_ledger_write (e : Event) : bool :=
  match e with EvWriteFileSync _ _ => true | _ => false end.

Definition is_fetch (e : Event) : bool :=
  match e with EvFetch _ _ => true | _ => false end.

(** The endpoint never becomes ready: every probe fails or is not ok. *)
Definition never_ready (env : Env) : Prop :=
  ∀ h url timeout,
    throws env (h ++ [EvFetch url timeout]) = true ∨
    response_ok env (h ++ [EvFetch url timeout]) = false.

(** Neither [spawn] nor the write of the ledger fails. *)
Definition launch_unhindered (env : Env) : Prop :=
  ∀ h e, is_spawn e || is_ledger_write e = true → throws env (h ++ [e]) = false.

(** One round of the readiness wait: a probe, then the fixed pause. *)
Definition probe_round : list Event := [EvFetch version_url None; EvSleep 300].

Definition probe_rounds (n : nat) : list Event := mjoin (replicate n probe_round).

(** Neither a launch nor a write of the ledger. *)
Definition no_launch (e : Event) : bool := negb (is_spawn e) && negb (is_ledger_write e).

(** What the reuse branch keeps: no launch and no ledger write since
    [base], and the flag, the child handle and the ledger as they were. *)
Definition reuse_inv (base : list Event) (g0 : Cli.Globals) (f : option FileContent)
    (w : World Cli.Globals) : Prop :=
  extends base no_launch w ∧
  Cli.weStartedChrome (globals w) = Cli.weStartedChrome g0 ∧
  Cli.chromeProcess (globals w) = Cli.chromeProcess g0 ∧
  pidFile w = f.

(** The control endpoint answers every probe. *)
Definition always_ready (h : list Event) : bool := true.

(** The launch of [initBrowser]. *)
Definition cli_spawn_event (env : Env) (path : string) : Event :=
  EvSpawn path (Cli.chromeArgs (join env (cwd env) ".chrome-profile")) (StdioAll ignore) false.

(** After the history [h], which ends with the launch, the ledger entry
    [entry] is written at once, nothing is launched or written after it, and
    the entry is on disk. *)
Definition launched_with_entry (env : Env) (h : list Event) (entry : Json)
    (w' : World Cli.Globals) : Prop :=
  extends (h ++ [EvWriteFileSync (pidFilePath env) entry]) no_launch w' ∧
  pidFile w' = Some (Document entry).

(** After the history [h], nothing is launched or written, and the ledger
    file is as it was. *)
Definition launched_without_entry (h : list Event) (f : option FileContent)
    (w' : World Cli.Globals) : Prop :=
  extends h no_launch w' ∧ pidFile w' = f.

(** The spawned child has no process id (the launch failed). *)
Definition no_pid (h : list Event) : option Z := None.

(** The calls that [initBrowser] can make. *)
Definition cli_init_event (e : Event) : bool :=
  match e with
  | EvFetch _ None | EvConsoleError _ | EvSpawn _ _ (StdioAll ignore) false
  | EvWriteFileSync _ _ | EvSleep _ | EvNewStagehand _ | EvStagehandInit _
  | EvPageEvaluate _ | EvMkdirSync _ | EvPageContext _ | EvNewCDPSession _
  | EvSetDownloadBehavior _ => true
  | _ => false
  end.

(** The calls that [getStagehand] can make. *)
Definition tools_init_event (e : Event) : bool :=
  match e with
  | EvFetch _ None | EvSpawn _ _ (StdioEach ignore pipe pipe) false
  | EvListen _ _ | EvSleep _ | EvNewStagehand _ | EvStagehandInit _
  | EvPageEvaluate _ | EvMkdirSync _ | EvPageContext _ | EvNewCDPSession _
  | EvSetDownloadBehavior _ => true
  | _ => false
  end.

(** A launch leaves the three standard streams of the child unattached. *)
Definition spawn_ignores_stdio (e : Event) : bool :=
  match e with
  | EvSpawn _ _ stdio _ =>
      match stdio_streams stdio with
      | (ignore, ignore, ignore) => true
      | _ => false
      end
  | _ => true
  end.

(** A launch ignores the standard input of the child and pipes its
    standard output and error. *)
Definition spawn_pipes_output (e : Event) : bool :=
  match e with
  | EvSpawn _ _ stdio _ =>
      match stdio_streams stdio with
      | (ignore, pipe, pipe) => true
      | _ => false
      end
  | _ => true
  end.

(** The launch of [getStagehand]. *)
Definition tools_spawn_event (env : Env) (path : string) : Event :=
  EvSpawn path
    [ "--remote-debugging-port=" +:+ pretty cdpPort;
      "--user-data-dir=" +:+ join env (cwd env) ".chrome-profile" ]
    (StdioEach ignore pipe pipe) false.

(** The listeners that [getStagehand] attaches to the child. *)
Definition tools_listeners : list Event :=
  [ EvListen child_stdout "data"; EvListen child_stderr "data";
    EvListen child_itself "error" ].

(** The type names for which the extract command has a validator. *)
Definition known_types : list Json := [JStr "string"; JStr "number"; JStr "boolean"].

(** Whenever the extraction engine is called, it is given the schema
    converted from [entries]. *)
Definition extract_event (entries : list (string * Json)) (e : Event) : bool :=
  match e with
  | EvPageExtract _ _ schema => bool_decide (schema = toZodSchema entries)
  | _ => true
  end.

(** A schema with two fields, one of a type that has no validator. *)
Definition mixed_schema : list (string * Json) :=
  [("title", JStr "string"); ("tags", JStr "array")].

(** *** Kills by process id *)

(** The process id that a call kills by id: [process.kill(pid, ...)] or
    [taskkill /PID pid /F].  (A kill through the handle of the child this
    process spawned, [chromeProcess.kill], names no id.) *)
Definition forced_kill_of (e : Event) : option JsVal :=
  match e with
  | EvProcessKill pid _ => Some pid
  | EvExec (CmdTaskkill pid) => Some pid
  | _ => None
  end.

Definition no_forced_kill (e : Event) : bool := bool_decide (forced_kill_of e = None).

(** The process id that the ledger file holds, if it can be read. *)
Definition ledger_pid (f : option FileContent) : option JsVal :=
  match f with
  | Some (Document j) => destructure_pid j
  | _ => None
  end.

(** A run of [verifyIsChromeProcess] on [pid] has just returned true: it
    ended with the history [h]. *)
Definition lookup_confirms (env : Env) (h : list Event) (pid : JsVal) : Prop :=
  ∃ w0 w1 : World Cli.Globals,
    verifyIsChromeProcess env pid w0 = (Ok true, w1) ∧ trace w1 = h.

(** Since [base], every kill by id was aimed at the id in the ledger [f]
    and came right after a confirming look-up of that id. *)
Definition kills_confirmed (env : Env) (base : list Event) (f : option FileContent)
    (w : World Cli.Globals) : Prop :=
  ∃ added,
    trace w = base ++ added ∧
    ∀ pre e post pid,
      added = pre ++ e :: post →
      forced_kill_of e = Some pid →
      ledger_pid f = Some pid ∧ lookup_confirms env (base ++ pre) pid.

(** The process table names process 4242 as a browser. *)
Definition names_chrome (h : list Event) : string := "chrome".

(** A browser answers on the control port and survives the graceful
    close. *)
Definition stubborn_chrome : Env :=
  with_exec_stdout names_chrome (with_response_ok always_ready quiet_env).

(** The invariant of [closeBrowser] up to its [finally] block: kills are
    confirmed and the ledger file is untouched. *)
Definition close_inv (env : Env) (base : list Event) (f : option FileContent)
    (w : World Cli.Globals) : Prop :=
  kills_confirmed env base f w ∧ pidFile w = f.

(** The test that [verifyIsChromeProcess] makes on the output of the
    look-up. *)
Definition names_browser (p : Platform) (stdout : string) : bool :=
  match p with
  | darwin | linux =>
      let processName := JsString.toLowerCase (JsString.trim stdout) in
      JsString.includes "chrome" processName || JsString.includes "chromium" processName
  | win32 => JsString.includes "chrome" (JsString.toLowerCase stdout)
  | other_platform => false
  end.

(** An earlier invocation left the ledger of process 4242. *)
Definition stale_ledger : World Cli.Globals := fresh (Some (Document ledger_4242)).

(** *** Further vocabulary *)

(** The test of [verifyIsChromeProcess] with the [trim] left out: the
    lower-cased output of the look-up contains the word. *)
Definition loose_browser_name (p : Platform) (stdout : string) : bool :=
  let name := JsString.toLowerCase stdout in
  match p with
  | darwin | linux => JsString.includes "chrome" name || JsString.includes "chromium" name
  | win32 => JsString.includes "chrome" name
  | other_platform => false
  end.

(** No character of the string is white space. *)
Fixpoint noSpace (s : string) : bool :=
  match s with
  | EmptyString => true
  | String c s' => negb (JsString.isSpace c) && noSpace s'
  end.

(** The process table names the process as a driver of the browser, not
    as the browser. *)
Definition names_driver (h : list Event) : string := "/usr/local/bin/ChromeDriver".

(** The module's variables of cli.ts after [closeBrowser]: the handle and
    the page are dropped when a handle was held, the child and the flag are
    dropped when this process started the child. *)
Definition closed (g : Cli.Globals) : Cli.Globals :=
  let g1 := match Cli.stagehandInstance g with
            | Some _ => Cli.set_currentPage None (Cli.set_stagehandInstance None g)
            | None => g
            end in
  match Cli.chromeProcess g1 with
  | Some _ =>
      if Cli.weStartedChrome g1
      then Cli.set_weStartedChrome false (Cli.set_chromeProcess None g1)
      else g1
  | None => g1
  end.

(** No throwaway connection, no read of the ledger, no kill by id. *)
Definition ledger_unused (e : Event) : bool :=
  match e with
  | EvNewStagehand _ | EvReadFileSync _ => false
  | _ => no_forced_kill e
  end.

(** No signal to the handle of a child. *)
Definition no_child_kill (e : Event) : bool :=
  match e with EvChildKill _ _ => false | _ => true end.

(** Since [base], every SIGKILL sent to the handle of a child came right
    after a SIGTERM to it and a pause of one second, with the child still
    not exited. *)
Definition child_kills_escalated (env : Env) (base : list Event) (w : World Cli.Globals)
    : Prop :=
  ∃ added,
    trace w = base ++ added ∧
    ∀ pre child post,
      added = pre ++ EvChildKill child (Some SIGKILL) :: post →
      exit_code_null env (base ++ pre) = true ∧
      ∃ pre', pre = pre' ++ [EvChildKill child (Some SIGTERM); EvSleep 1000].

(** This process holds the child it started, ready and connected. *)
Definition own_child : ChildProcess := {| child_pid := Some 4242; child_born := 2 |}.

Definition launched : World Cli.Globals :=
  {| globals := {| Cli.stagehandInstance := Some connected_stagehand;
                   Cli.currentPage := Some (PageOf connected_stagehand);
                   Cli.chromeProcess := Some own_child;
                   Cli.weStartedChrome := true |};
     pidFile := Some (Document ledger_4242);
     trace := [] |}.

(** One failed round of the wait for the page: an evaluation, then the
    pause. *)
Definition page_round (p : Page) : list Event := [EvPageEvaluate p; EvSleep 100].

Definition page_rounds (n : nat) (p : Page) : list Event := mjoin (replicate n (page_round p)).

(** The calls of a wait for the page that made [k] failed rounds out of
    [fuel]: a last, successful evaluation follows unless the rounds ran out. *)
Definition page_wait (k fuel : nat) (p : Page) : list Event :=
  page_rounds k p ++ (if (k <? fuel)%nat then [EvPageEvaluate p] else []).

(** The page never becomes ready: every evaluation fails. *)
Definition page_never_ready (env : Env) : Prop :=
  ∀ h p, throws env (h ++ [EvPageEvaluate p]) = true.

(** Nothing fails but evaluations on the page. *)
Definition only_evaluate_fails (env : Env) : Prop :=
  ∀ h e, throws env (h ++ [e]) = true → ∃ p, e = EvPageEvaluate p.

(** Every evaluation on the page fails, and nothing else. *)
Definition evaluate_fails (h : list Event) : bool :=
  match last h with
  | Some (EvPageEvaluate _) => true
  | _ => false
  end.

(** A Chrome answers on the control port, but its page never becomes
    ready. *)
Definition unready_page : Env :=
  with_throws evaluate_fails (with_response_ok always_ready quiet_env).

(** The handle whose initialization was rejected, if that is how a call
    ended. *)
Definition init_rejected {A} (r : Res A) : option Stagehand :=
  match r with
  | Throw (Rejected (EvStagehandInit sh)) => Some sh
  | _ => None
  end.

(** The postcondition of a failed initialization in [getStagehand]: the
    handle is left in the module's variable, the page is as it was. *)
Definition stale_after_init {A} (page0 : option Page) (r : Res A) (w : World Tools.Globals)
    : Prop :=
  ∀ sh, init_rejected r = Some sh →
        Tools.stagehandInstance (globals w) = Some sh ∧
        Tools.currentPage (globals w) = page0.

(** The initialization of the control handle fails, nothing else; the
    control endpoint answers. *)
Definition init_fails (h : list Event) : bool :=
  match last h with
  | Some (EvStagehandInit _) => true
  | _ => false
  end.

Definition broken_init : Env :=
  with_throws init_fails (with_response_ok always_ready quiet_env).

(** Closing the control handle fails, nothing else. *)
Definition close_fails (h : list Event) : bool :=
  match last h with
  | Some (EvStagehandClose _) => true
  | _ => false
  end.

(** The tool server holds a session and the child it launched. *)
Definition serving : World Tools.Globals :=
  {| globals := {| Tools.stagehandInstance := Some connected_stagehand;
                   Tools.currentPage := Some (PageOf connected_stagehand);
                   Tools.chromeProcess := Some own_child;
                   Tools.tempUserDataDir := Some "/work/.chrome-profile" |};
     pidFile := None;
     trace := [] |}.

(** A step keeps [Inv] when it returns, and when it throws it is not
    the rejection of an initialization. *)
Definition kept_or_thrown {A} (Inv : World Tools.Globals → Prop) (r : Res A)
    (w : World Tools.Globals) : Prop :=
  match r with
  | Ok _ => Inv w
  | Throw _ => init_rejected r = None
  end.

(** The page held in the module's variables of stagehand-tools.ts. *)
Definition page_kept (page0 : option Page) (w : World Tools.Globals) : Prop :=
  Tools.currentPage (globals w) = page0.

(** The world after [initBrowser] and then [closeBrowser], in one
    process. *)
Definition init_then_close (env : Env) (w : World Cli.Globals) : World Cli.Globals :=
  (Cli.closeBrowser env (Cli.initBrowser env w).2).2.

(** No Chrome is installed. *)
Definition no_chrome : Env :=
  {| platform := linux; getenv := λ _, None; cwd := "/work";
     path_exists := λ _, false;
     throws := λ _, false; response_ok := always_ready;
     spawned_pid := λ _, Some 4242; exec_stdout := λ _, "";
     exit_code_null := λ _, true; date_now := λ _, 1700000000000 |}.

(** The flag [weStartedChrome] is set only while a child is held. *)
Definition flag_has_child (w : World Cli.Globals) : Prop :=
  Cli.weStartedChrome (globals w) = true → is_Some (Cli.chromeProcess (globals w)).

(** A child is held. *)
Definition child_held (w : World Cli.Globals) : Prop :=
  is_Some (Cli.chromeProcess (globals w)).

(** The last call was the configuration of the downloads, and it did not
    fail. *)
Definition downloads_configured (env : Env) (w : World Cli.Globals) : Prop :=
  ∃ h, trace w
       = h ++ [EvSetDownloadBehavior (join env (join env (cwd env) "agent") "downloads")] ∧
       throws env (trace w) = false.

(** The process id that the launcher of [env] reports at the start of an
    invocation (0 when it reports none). *)
Definition spawned_pid_of (env : Env) : Z :=
  default 0 (spawned_pid env [EvFetch version_url None;
                              cli_spawn_event env (default "" (findLocalChrome env))]).

(** *** The answer of the process table *)




(** *** A launch that yields a process *)

(** Every launched child has a process id.  (A child without one is a
    launch that failed: Node then emits ['error'] on the child.) *)
Definition child_has_pid (env : Env) : Prop :=
  ∀ h, ∃ pid, spawned_pid env h = Some pid ∧ pid ≠ 0.

(** *** Validators and type names *)

(** The type name for which the extract command builds the validator. *)
Definition type_name (v : ZodType) : Json :=
  match v with
  | z_string => JStr "string"
  | z_number => JStr "number"
  | z_boolean => JStr "boolean"
  end.

(** No field named [__proto__] has one of the three known types, so that
    no assignment of the loop reaches the prototype of [zodSchema]. *)
Definition plain_prototype (entries : list (string * Json)) : Prop :=
  ∀ type, ("__proto__", type) ∈ entries → type ∉ known_types.

(** A schema whose field [__proto__] has a type without validator. *)
Definition odd_schema : list (string * Json) :=
  [("__proto__", JStr "object"); ("price", JStr "number")].

(** ** Rules of the program logic *)

Section Logic.
Context {G : Type}.
Implicit Types w : World G.

Lemma hoare_conseq {A} (P P' : World G → Prop) (Q Q' : Res A → World G → Prop) (m : M G A) :
  hoare P' m Q' → (∀ w, P w → P' w) → (∀ r w, Q' r w → Q r w) → hoare P m Q.
Proof. intros Hm HP HQ w Hw. apply HQ, Hm, HP, Hw. Qed.

Lemma hoare_ret {A} (P : World G → Prop) (Q : Res A → World G → Prop) (a : A) :
  (∀ w, P w → Q (Ok a) w) → hoare P (mret a) Q.
Proof. intros H w Hw. apply H, Hw. Qed.

Lemma hoare_throw {A} (P : World G → Prop) (Q : Res A → World G → Prop) (e : Exn) :
  (∀ w, P w → Q (Throw e) w) → hoare P (throw e) Q.
Proof. intros H w Hw. apply H, Hw. Qed.

Lemma hoare_bind {A B} (P : World G → Prop) (R : A → World G → Prop)
    (Q : Res B → World G → Prop) (m : M G A) (f : A → M G B) :
  hoare P m (λ r w, match r with Ok a => R a w | Throw e => Q (Throw e) w end) →
  (∀ a, hoare (R a) (f a) Q) →
  hoare P (m ≫= f) Q.
Proof.
  intros Hm Hf w Hw. specialize (Hm w Hw).
  unfold mbind, M_bind. destruct (m w) as [[a|e] w']; simpl in *; [|done].
  apply Hf, Hm.
Qed.

Lemma hoare_try_catch {A} (P : World G → Prop) (R : Exn → World G → Prop)
    (Q : Res A → World G → Prop) (body : M G A) (handler : Exn → M G A) :
  hoare P body (λ r w, match r with Ok a => Q (Ok a) w | Throw e => R e w end) →
  (∀ e, hoare (R e) (handler e) Q) →
  hoare P (try_catch body handler) Q.
Proof.
  intros Hm Hh w Hw. specialize (Hm w Hw).
  unfold try_catch. destruct (body w) as [[a|e] w']; simpl in *; [done|].
  apply Hh, Hm.
Qed.

Lemma hoare_try_finally {A} (P : World G → Prop) (R : Res A → World G → Prop)
    (Q : Res A → World G → Prop) (body : M G A) (cleanup : M G ()) :
  hoare P body R →
  (∀ r, hoare (R r) cleanup
          (λ r' w, match r' with Ok _ => Q r w | Throw e => Q (Throw e) w end)) →
  hoare P (try_finally body cleanup) Q.
Proof.
  intros Hm Hc w Hw. specialize (Hm w Hw).
  unfold try_finally. destruct (body w) as [r w']; simpl in *.
  specialize (Hc r w' Hm). destruct (cleanup w') as [[[]|e] w'']; done.
Qed.

Lemma hoare_get (P : World G → Prop) (Q : Res G → World G → Prop) :
  (∀ w, P w → Q (Ok (globals w)) w) → hoare P get Q.
Proof. intros H w Hw. apply H, Hw. Qed.

Lemma hoare_history (P : World G → Prop) (Q : Res (list Event) → World G → Prop) :
  (∀ w, P w → Q (Ok (trace w)) w) → hoare P history Q.
Proof. intros H w Hw. apply H, Hw. Qed.

Lemma hoare_get_file (P : World G → Prop) (Q : Res (option FileContent) → World G → Prop) :
  (∀ w, P w → Q (Ok (pidFile w)) w) → hoare P get_file Q.
Proof. intros H w Hw. apply H, Hw. Qed.

Lemma hoare_set_file (P : World G → Prop) (Q : Res () → World G → Prop) c :
  (∀ w, P w → Q (Ok ()) (Build_World (globals w) c (trace w))) → hoare P (set_file c) Q.
Proof. intros H w Hw. apply H, Hw. Qed.

Lemma hoare_modify (P : World G → Prop) (Q : Res () → World G → Prop) (f : G → G) :
  (∀ w, P w → Q (Ok ()) (Build_World (f (globals w)) (pidFile w) (trace w))) →
  hoare P (modify f) Q.
Proof. intros H w Hw. apply H, Hw. Qed.

Lemma hoare_emit_quiet (P : World G → Prop) (Q : Res () → World G → Prop) (e : Event) :
  (∀ w, P w → Q (Ok ()) (record_event e w)) → hoare P (emit_quiet e) Q.
Proof. intros H w Hw. apply H, Hw. Qed.

Lemma hoare_emit env (P : World G → Prop) (Q : Res () → World G → Prop) (e : Event) :
  (∀ w, P w →
     if throws env (trace w ++ [e]) then Q (Throw (Rejected e)) (record_event e w)
     else Q (Ok ()) (record_event e w)) →
  hoare P (emit env e) Q.
Proof.
  intros H w Hw. specialize (H w Hw). unfold emit. simpl.
  destruct (throws env (trace w ++ [e])); done.
Qed.

Lemma preserves_ret {A} (I : World G → Prop) (a : A) : preserves I (mret a).
Proof. by apply hoare_ret. Qed.

Lemma preserves_throw {A} (I : World G → Prop) e : preserves I (throw (A:=A) e).
Proof. by apply hoare_throw. Qed.

Lemma preserves_bind {A B} (I : World G → Prop) (m : M G A) (f : A → M G B) :
  preserves I m → (∀ a, preserves I (f a)) → preserves I (m ≫= f).
Proof.
  intros Hm Hf. apply hoare_bind with (R := λ _, I); [|done].
  eapply hoare_conseq; [exact Hm|done|]. by intros [].
Qed.

Lemma preserves_try_catch {A} (I : World G → Prop) (body : M G A) handler :
  preserves I body → (∀ e, preserves I (handler e)) → preserves I (try_catch body handler).
Proof.
  intros Hm Hh. apply hoare_try_catch with (R := λ _, I); [|done].
  eapply hoare_conseq; [exact Hm|done|]. by intros [].
Qed.

Lemma preserves_try_finally {A} (I : World G → Prop) (body : M G A) cleanup :
  preserves I body → preserves I cleanup → preserves I (try_finally body cleanup).
Proof.
  intros Hm Hc. apply hoare_try_finally with (R := λ _, I); [done|].
  intros _. eapply hoare_conseq; [exact Hc|done|]. by intros [].
Qed.

Lemma preserves_get (I : World G → Prop) : preserves I get.
Proof. by apply hoare_get. Qed.

Lemma preserves_history (I : World G → Prop) : preserves I history.
Proof. by apply hoare_history. Qed.

Lemma preserves_get_file (I : World G → Prop) : preserves I get_file.
Proof. by apply hoare_get_file. Qed.

Lemma preserves_emit_quiet (I : World G → Prop) e :
  (∀ w, I w → I (record_event e w)) → preserves I (emit_quiet e).
Proof. intros H. by apply hoare_emit_quiet. Qed.

Lemma preserves_emit env (I : World G → Prop) e :
  (∀ w, I w → I (record_event e w)) → preserves I (emit env e).
Proof.
  intros H. apply hoare_emit. intros w Hw.
  destruct (throws env (trace w ++ [e])); by apply H.
Qed.

Lemma preserves_modify (I : World G → Prop) (f : G → G) :
  (∀ w, I w → I (Build_World (f (globals w)) (pidFile w) (trace w))) →
  preserves I (modify f).
Proof. intros H. by apply hoare_modify. Qed.

Lemma preserves_set_file (I : World G → Prop) c :
  (∀ w, I w → I (Build_World (globals w) c (trace w))) → preserves I (set_file c).
Proof. intros H. by apply hoare_set_file. Qed.

End Logic.

Section NeverThrows.
Context {G : Type}.

Lemma never_throws_ret {A} (a : A) : never_throws (G:=G) (mret a).
Proof. by apply hoare_ret. Qed.

Lemma never_throws_bind {A B} (m : M G A) (f : A → M G B) :
  never_throws m → (∀ a, never_throws (f a)) → never_throws (m ≫= f).
Proof.
  intros Hm Hf. apply hoare_bind with (R := λ _ _, True); [|done].
  eapply hoare_conseq; [exact Hm|done|]. by intros [].
Qed.

(** A handler that never throws swallows whatever the body throws. *)
Lemma never_throws_try_catch {A} (body : M G A) handler :
  (∀ e, never_throws (handler e)) → never_throws (try_catch body handler).
Proof.
  intros Hh w _. unfold try_catch.
  destruct (body w) as [[a|e] w']; [done|]. by apply Hh.
Qed.

Lemma never_throws_try_finally {A} (body : M G A) cleanup :
  never_throws body → never_throws cleanup → never_throws (try_finally body cleanup).
Proof.
  intros Hm Hc. apply hoare_try_finally with (R := λ r _, is_Ok r); [done|].
  intros r w Hr. specialize (Hc w I). by destruct (cleanup w) as [[[]|e] w''].
Qed.

Lemma never_throws_get : never_throws (G:=G) get.
Proof. by apply hoare_get. Qed.

Lemma never_throws_get_file : never_throws (G:=G) get_file.
Proof. by apply hoare_get_file. Qed.

Lemma never_throws_modify (f : G → G) : never_throws (modify f).
Proof. by apply hoare_modify. Qed.

Lemma never_throws_emit_quiet e : never_throws (G:=G) (emit_quiet e).
Proof. by apply hoare_emit_quiet. Qed.

(** Sequencing after a part that never throws and keeps an invariant. *)
Lemma hoare_bind_total {A B} (Inv : World G → Prop) (Q : Res B → World G → Prop)
    (m : M G A) (f : A → M G B) :
  never_throws m → preserves Inv m → (∀ a, hoare Inv (f a) Q) → hoare Inv (m ≫= f) Q.
Proof.
  intros Hnt Hm Hf. apply hoare_bind with (R := λ _, Inv); [|done].
  intros w Hw. specialize (Hnt w I). specialize (Hm w Hw).
  by destruct (m w).1.
Qed.

(** Sequencing after a part that keeps an invariant, towards a
    postcondition that asks nothing of an exception. *)
Lemma hoare_bind_preserves {A B} (Inv : World G → Prop) (Q : Res B → World G → Prop)
    (m : M G A) (f : A → M G B) :
  (∀ e w, Q (Throw e) w) →
  preserves Inv m → (∀ a, hoare Inv (f a) Q) → hoare Inv (m ≫= f) Q.
Proof.
  intros HQ Hm Hf. apply hoare_bind with (R := λ _, Inv); [|done].
  intros w Hw. specialize (Hm w Hw). by destruct (m w).1.
Qed.

Lemma never_throws_Ok {A} (m : M G A) w : never_throws m → ∃ a, (m w).1 = Ok a.
Proof. intros H. specialize (H w I). destruct (m w).1; [eauto|done]. Qed.

End NeverThrows.

Ltac never_throws_step :=
  first
    [ apply never_throws_ret
    | apply never_throws_get
    | apply never_throws_get_file
    | apply never_throws_modify
    | apply never_throws_emit_quiet
    | apply never_throws_try_catch; intros ?
    | apply never_throws_try_finally
    | apply never_throws_bind; [|intros ?]
    | match goal with
      | |- never_throws (match ?x with _ => _ end) => destruct x
      end ].

Section CloseBrowserNeverThrows.
Variable env : Env.

Lemma closeOwnInstance_never_throws : never_throws (Cli.closeOwnInstance env).
Proof. unfold Cli.closeOwnInstance, console_error. repeat never_throws_step. Qed.

Lemma killOwnChild_never_throws : never_throws (Cli.killOwnChild env).
Proof. unfold Cli.killOwnChild, console_error. repeat never_throws_step. Qed.

Lemma cleanupPidFile_never_throws : never_throws (Cli.cleanupPidFile env).
Proof. unfold Cli.cleanupPidFile, ledger_exists. repeat never_throws_step. Qed.

(** C3. [closeBrowser] returns normally from every state and whatever the
    outside does: a failing close of the control handle, a failing kill of
    the child, a failing probe, an unreadable or malformed ledger, a
    failing look-up in the process table and a failing deletion of the
    ledger are all swallowed. *)
Theorem closeBrowser_never_throws (w : World Cli.Globals) :
  (Cli.closeBrowser env w).1 = Ok ().
Proof.
  assert (never_throws (Cli.closeBrowser env)) as H.
  { unfold Cli.closeBrowser.
    apply never_throws_bind; [apply closeOwnInstance_never_throws|intros _].
    apply never_throws_bind; [apply killOwnChild_never_throws|intros _].
    apply never_throws_try_finally; [|apply cleanupPidFile_never_throws].
    repeat never_throws_step. }
  destruct (never_throws_Ok _ w H) as [[] ->]. done.
Qed.

End CloseBrowserNeverThrows.

Ltac preserves_step :=
  first
    [ apply preserves_ret
    | apply preserves_throw
    | apply preserves_get
    | apply preserves_history
    | apply preserves_get_file
    | apply preserves_bind; [|intros ?]
    | apply preserves_try_catch; [|intros ?]
    | apply preserves_try_finally
    | apply preserves_emit
    | apply preserves_emit_quiet
    | apply preserves_modify
    | apply preserves_set_file
    | match goal with
      | |- preserves _ (match ?x with _ => _ end) => destruct x
      end ].

Create HintDb prog discriminated.
#[global] Hint Unfold fetch_ok exec new_Stagehand spawn sleep console_error
  ledger_exists read_ledger write_ledger unlink_ledger verifyIsChromeProcess : prog.
#[global] Hint Unfold Cli.forceKill Cli.killFromLedger Cli.gracefulThenForce
  Cli.closeOwnInstance Cli.killOwnChild Cli.cleanupPidFile Cli.storePid
  Cli.configureDownloads Cli.launchChrome : prog.
#[global] Hint Unfold Tools.configureDownloads Tools.launchAndConnect : prog.

Section LedgerRemoval.
Variable env : Env.


Lemma cleanupPidFile_removes :
  hoare (deletable env) (Cli.cleanupPidFile env) (λ _ w, pidFile w = None).
Proof.
  intros w Hw. unfold Cli.cleanupPidFile, ledger_exists, unlink_ledger, try_catch, emit,
    get_file, set_file, mbind, M_bind, mret, M_ret. simpl.
  destruct (pidFile w) as [c|] eqn:Hf; simpl; [|done].
  destruct Hw as [Hw|Hw]; [congruence|]. by rewrite Hw.
Qed.

Lemma closeBrowser_removes_ledger :
  hoare (deletable env) (Cli.closeBrowser env) (λ _ w, pidFile w = None).
Proof.
  unfold Cli.closeBrowser.
  apply hoare_bind_total; [apply closeOwnInstance_never_throws| |intros _].
  { autounfold with prog. repeat preserves_step; by intros []. }
  apply hoare_bind_total; [apply killOwnChild_never_throws| |intros _].
  { autounfold with prog. repeat preserves_step; by intros []. }
  apply hoare_try_finally with (R := λ _, deletable env).
  { autounfold with prog. repeat preserves_step; by intros []. }
  intros r. eapply hoare_conseq; [apply cleanupPidFile_removes|done|].
  intros r' w Hw. by destruct r' as [[]|e].
Qed.

End LedgerRemoval.

(** C2 (amended). After [closeBrowser] the ledger file does not exist,
    provided it did not exist before or its deletion cannot fail. A failed
    [unlinkSync] is swallowed by the [finally] block and leaves the file. *)
Theorem closeBrowser_ledger_removed env (w : World Cli.Globals) :
  pidFile w = None ∨ (∀ h, throws env (h ++ [EvUnlinkSync (pidFilePath env)]) = false) →
  pidFile (Cli.closeBrowser env w).2 = None.
Proof. intros H. by apply closeBrowser_removes_ledger. Qed.

Lemma closeBrowser_ledger_removed_witness :
  (pidFile (fresh (Some (Document ledger_4242))) = None ∨
   ∀ h, throws quiet_env (h ++ [EvUnlinkSync (pidFilePath quiet_env)]) = false) ∧
  pidFile (Cli.closeBrowser quiet_env (fresh (Some (Document ledger_4242)))).2 = None.
Proof.
  split; [right; reflexivity|].
  apply (closeBrowser_ledger_removed quiet_env (fresh (Some (Document ledger_4242)))).
  right; reflexivity.
Defined.

(** C2 as stated fails: where the deletion fails, [closeBrowser] completes
    and the ledger file is still there. *)
Lemma closeBrowser_ledger_survives_failed_unlink :
  (Cli.closeBrowser (with_throws unlink_fails quiet_env)
     (fresh (Some (Document ledger_4242)))).1 = Ok () ∧
  pidFile (Cli.closeBrowser (with_throws unlink_fails quiet_env)
             (fresh (Some (Document ledger_4242)))).2 ≠ None.
Proof. split; [reflexivity|]. vm_compute. discriminate. Qed.

(** C9. [verifyIsChromeProcess] is fail-closed: when the look-up in the
    process table fails, or the platform has none, it returns [false] and
    does not throw. *)
Theorem verifyIsChromeProcess_fail_closed {G} env pid (w : World G) :
  match lookup_command (platform env) pid with
  | Some cmd => throws env (trace w ++ [EvExec cmd]) = true
  | None => True
  end →
  (verifyIsChromeProcess env pid w).1 = Ok false.
Proof.
  unfold verifyIsChromeProcess, lookup_command, exec, try_catch, emit, mbind, M_bind.
  destruct (platform env); simpl; intros H; rewrite ?H; done.
Qed.

Lemma verifyIsChromeProcess_fail_closed_witness :
  match lookup_command (platform (with_throws exec_fails quiet_env)) (Some (JNum 4242)) with
  | Some cmd => throws (with_throws exec_fails quiet_env) (trace (fresh None) ++ [EvExec cmd]) = true
  | None => True
  end ∧
  (verifyIsChromeProcess (with_throws exec_fails quiet_env) (Some (JNum 4242)) (fresh None)).1
  = Ok false.
Proof.
  split; [reflexivity|].
  apply (verifyIsChromeProcess_fail_closed (with_throws exec_fails quiet_env)
           (Some (JNum 4242)) (fresh None)).
  reflexivity.
Defined.

Section Memoization.
Variable env : Env.

Lemma cli_waitForPage_preserves (Inv : World Cli.Globals → Prop) fuel retries p :
  (∀ w, Inv w → Inv (record_event (EvPageEvaluate p) w)) →
  (∀ w, Inv w → Inv (record_event (EvSleep 100) w)) →
  preserves Inv (Cli.waitForPage env fuel retries p).
Proof.
  intros HI HI'. revert retries.
  induction fuel as [|fuel IH]; intros retries; simpl;
    autounfold with prog; repeat preserves_step; auto.
Qed.

Lemma tools_waitForPage_preserves (Inv : World Tools.Globals → Prop) fuel retries p :
  (∀ w, Inv w → Inv (record_event (EvPageEvaluate p) w)) →
  (∀ w, Inv w → Inv (record_event (EvSleep 100) w)) →
  preserves Inv (Tools.waitForPage env fuel retries p).
Proof.
  intros HI HI'. revert retries.
  induction fuel as [|fuel IH]; intros retries; simpl;
    autounfold with prog; repeat preserves_step; auto.
Qed.

Lemma connectStagehand_memoizes :
  hoare (λ _, True) (Cli.connectStagehand env)
    (λ r w, match r with Ok s => cli_memoized s w | Throw _ => True end).
Proof.
  unfold Cli.connectStagehand.
  apply hoare_bind with (R := λ _ _, True); [by intros w _; destruct (_ w).1|].
  intros sh.
  apply hoare_bind with (R := λ _ w, is_Some (Cli.stagehandInstance (globals w))).
  { apply hoare_modify. by eexists. }
  intros _. apply hoare_bind_preserves; [done|by apply preserves_emit|intros _].
  apply hoare_bind_preserves; [done|by apply preserves_modify|intros _].
  apply hoare_bind_preserves; [done|by apply cli_waitForPage_preserves|intros _].
  apply hoare_bind_preserves; [done| |intros _].
  { autounfold with prog. repeat preserves_step; done. }
  apply hoare_bind with (R := λ g w, g = globals w ∧ is_Some (Cli.stagehandInstance g)).
  { by apply hoare_get. }
  intros g. apply hoare_ret. by intros w [-> ?].
Qed.

Lemma initBrowser_memoizes :
  hoare (λ _, True) (Cli.initBrowser env)
    (λ r w, match r with Ok s => cli_memoized s w | Throw _ => True end).
Proof.
  unfold Cli.initBrowser.
  apply hoare_bind with (R := λ g w, g = globals w); [by apply hoare_get|].
  intros g. destruct (Cli.stagehandInstance g) as [sh|] eqn:Hsh.
  { apply hoare_ret. intros w ->. unfold cli_memoized. by rewrite Hsh. }
  destruct (negb _); [by apply hoare_throw|].
  apply hoare_bind with (R := λ _ _, True); [by intros w _; destruct (_ w).1|].
  intros ready.
  apply hoare_bind with (R := λ _ _, True); [by intros w _; destruct (_ w).1|].
  intros _. eapply hoare_conseq; [apply connectStagehand_memoizes|done..].
Qed.

Lemma launchAndConnect_sets_instance :
  hoare (λ _, True) (Tools.launchAndConnect env)
    (λ r w, match r with
            | Ok _ => is_Some (Tools.stagehandInstance (globals w))
            | Throw _ => True
            end).
Proof.
  unfold Tools.launchAndConnect.
  destruct (negb _); [by apply hoare_throw|].
  do 7 (apply hoare_bind with (R := λ _ _, True); [by intros w _; destruct (_ w).1|];
        intros ?).
  destruct (negb _); [by apply hoare_throw|].
  apply hoare_bind with (R := λ _ _, True); [by intros w _; destruct (_ w).1|].
  intros sh.
  apply hoare_bind with (R := λ _ w, is_Some (Tools.stagehandInstance (globals w))).
  { apply hoare_modify. by eexists. }
  intros _. apply hoare_bind_preserves; [done|by apply preserves_emit|intros _].
  apply hoare_bind_preserves; [done|by apply preserves_modify|intros _].
  apply hoare_bind_preserves; [done|by apply tools_waitForPage_preserves|intros retries].
  destruct (30 <=? retries)%nat; [by apply hoare_throw|].
  apply hoare_conseq with (P' := λ w, is_Some (Tools.stagehandInstance (globals w)))
                          (Q' := λ _ w, is_Some (Tools.stagehandInstance (globals w)));
    [|done|by intros []].
  change (preserves (λ w, is_Some (Tools.stagehandInstance (globals w)))
            (Tools.configureDownloads env (PageOf sh))).
  autounfold with prog. repeat preserves_step; done.
Qed.

Lemma getStagehand_memoizes :
  hoare (λ _, True) (Tools.getStagehand env)
    (λ r w, match r with Ok s => tools_memoized s w | Throw _ => True end).
Proof.
  unfold Tools.getStagehand.
  apply hoare_bind with (R := λ g w, g = globals w); [by apply hoare_get|].
  intros g.
  apply hoare_bind with (R := λ _ w, is_Some (Tools.stagehandInstance (globals w))).
  { destruct (Tools.stagehandInstance g) as [sh|] eqn:Hsh.
    - apply hoare_ret. intros w ->. by rewrite Hsh.
    - eapply hoare_conseq; [apply launchAndConnect_sets_instance|done|]. by intros []. }
  intros _.
  apply hoare_bind with (R := λ g w, g = globals w ∧ is_Some (Tools.stagehandInstance g)).
  { by apply hoare_get. }
  intros g'. apply hoare_ret. by intros w [-> ?].
Qed.

(** C7. Acquisition is memoized. When the module already holds a control
    handle, [initBrowser] (cli.ts) and [getStagehand] (stagehand-tools.ts)
    return the pair held in the module's variables and leave the world as it
    is: no probe, no launch, no initialization, no event at all. So a call
    that follows a successful one returns the same pair again. *)
Theorem acquisition_memoized :
  (∀ (w : World Cli.Globals) sh,
     Cli.stagehandInstance (globals w) = Some sh →
     Cli.initBrowser env w
     = (Ok {| stagehand := Some sh; page := Cli.currentPage (globals w) |}, w)) ∧
  (∀ (w : World Tools.Globals) sh,
     Tools.stagehandInstance (globals w) = Some sh →
     Tools.getStagehand env w
     = (Ok {| stagehand := Some sh; page := Tools.currentPage (globals w) |}, w)) ∧
  (∀ w s w', Cli.initBrowser env w = (Ok s, w') → Cli.initBrowser env w' = (Ok s, w')) ∧
  (∀ w s w', Tools.getStagehand env w = (Ok s, w') → Tools.getStagehand env w' = (Ok s, w')).
Proof.
  assert (∀ (w : World Cli.Globals) sh,
     Cli.stagehandInstance (globals w) = Some sh →
     Cli.initBrowser env w
     = (Ok {| stagehand := Some sh; page := Cli.currentPage (globals w) |}, w)) as Hcli.
  { intros w sh Hsh. unfold Cli.initBrowser, get, mbind, M_bind. by rewrite Hsh. }
  assert (∀ (w : World Tools.Globals) sh,
     Tools.stagehandInstance (globals w) = Some sh →
     Tools.getStagehand env w
     = (Ok {| stagehand := Some sh; page := Tools.currentPage (globals w) |}, w)) as Htools.
  { intros w sh Hsh. unfold Tools.getStagehand, get, mbind, M_bind. rewrite Hsh. simpl.
    by rewrite Hsh. }
  repeat split; [done|done| |].
  - intros w s w' Hrun. pose proof (initBrowser_memoizes w I) as Hm.
    rewrite Hrun in Hm. destruct Hm as [[sh Hsh] ->].
    rewrite (Hcli w' sh Hsh). by rewrite Hsh.
  - intros w s w' Hrun. pose proof (getStagehand_memoizes w I) as Hm.
    rewrite Hrun in Hm. destruct Hm as [[sh Hsh] ->].
    rewrite (Htools w' sh Hsh). by rewrite Hsh.
Qed.

End Memoization.

Lemma acquisition_memoized_witness :
  Cli.stagehandInstance (globals connected) = Some connected_stagehand ∧
  Cli.initBrowser quiet_env connected
  = (Ok {| stagehand := Some connected_stagehand;
           page := Cli.currentPage (globals connected) |}, connected).
Proof.
  split; [reflexivity|].
  apply (proj1 (acquisition_memoized quiet_env) connected connected_stagehand).
  reflexivity.
Defined.

Ltac run :=
  unfold mbind, M_bind, mret, M_ret, try_catch, try_finally, throw, get, modify, history,
    get_file, set_file, emit_quiet, emit, record_event; simpl.

Lemma findLocalChrome_truthy env path :
  findLocalChrome env = Some path → JsString.truthy (findLocalChrome env) = true.
Proof.
  intros H. rewrite H. apply find_some in H as [_ H]. by apply andb_prop in H as [? _].
Qed.

Section ReadinessWait.
Variable env : Env.
Hypothesis Hnever : never_ready env.

Lemma probe_fails (timeout : option Z) (w : World Cli.Globals) (reuse : bool) :
  throws env (trace w ++ [EvFetch version_url timeout]) = true ∨
  response_ok env (trace w ++ [EvFetch version_url timeout]) = false →
  try_catch
    (ok ← fetch_ok env timeout;
     if ok : bool
     then (if reuse
           then console_error "Reusing existing Chrome instance on port"
           else modify (Cli.set_weStartedChrome true));; mret true
     else mret false)
    (λ _, mret false) w
  = (Ok false, record_event (EvFetch version_url timeout) w).
Proof.
  intros H. unfold fetch_ok. run.
  destruct H as [-> | Hok]; [done|].
  destruct (throws env _); [done|]. simpl. by rewrite Hok.
Qed.

Lemma probe_not_ready (timeout : option Z) (w : World Cli.Globals) (reuse : bool) :
  try_catch
    (ok ← fetch_ok env timeout;
     if ok : bool
     then (if reuse
           then console_error "Reusing existing Chrome instance on port"
           else modify (Cli.set_weStartedChrome true));; mret true
     else mret false)
    (λ _, mret false) w
  = (Ok false, record_event (EvFetch version_url timeout) w).
Proof. apply probe_fails, Hnever. Qed.

Lemma waitForChrome_exhausts n (w : World Cli.Globals) :
  Cli.waitForChrome env n w
  = (Ok false, {| globals := globals w; pidFile := pidFile w;
                  trace := trace w ++ probe_rounds n |}).
Proof.
  revert w. induction n as [|n IH]; intros w.
  - simpl. unfold probe_rounds. simpl. rewrite app_nil_r. by destruct w.
  - cbn [Cli.waitForChrome].
    pose proof (probe_not_ready None w false) as Hp. cbn beta iota in Hp.
    unfold mbind at 1, M_bind at 1. rewrite Hp.
    unfold sleep. unfold mbind at 1, M_bind at 1, emit_quiet.
    rewrite IH. unfold record_event, probe_rounds. simpl.
    by rewrite <- !app_assoc.
Qed.

End ReadinessWait.

Section StartupTimeout.
Variable env : Env.
Hypothesis Hnever : never_ready env.
Hypothesis Hlaunch : launch_unhindered env.

Lemma run_bind {G A B} (m : M G A) (f : A → M G B) w a w1 :
  m w = (Ok a, w1) → (m ≫= f) w = f a w1.
Proof. intros H. unfold mbind, M_bind. by rewrite H. Qed.

Lemma spawn_unhindered {G} path args stdio detached (w : World G) :
  spawn env path args stdio detached w
  = (Ok {| child_pid := spawned_pid env (trace w ++ [EvSpawn path args stdio detached]);
           child_born := List.length (trace w ++ [EvSpawn path args stdio detached]) |},
     record_event (EvSpawn path args stdio detached) w).
Proof. unfold spawn. run. by rewrite Hlaunch. Qed.

Lemma write_ledger_unhindered {G} doc (w : World G) :
  write_ledger env doc w
  = (Ok (), {| globals := globals w; pidFile := Some (Document doc);
               trace := trace w ++ [EvWriteFileSync (pidFilePath env) doc] |}).
Proof. unfold write_ledger. run. by rewrite Hlaunch. Qed.

Lemma launchChrome_times_out path dir (w : World Cli.Globals) :
  ∃ launch w',
    Cli.launchChrome env path dir w = (Throw (Error "Chrome failed to start"), w') ∧
    trace w' = trace w ++ launch ++ probe_rounds 50.
Proof.
  unfold Cli.launchChrome.
  erewrite run_bind; [|apply spawn_unhindered].
  erewrite run_bind; [|reflexivity].
  unfold Cli.storePid. cbn [child_pid].
  destruct (spawned_pid env _) as [pid|] eqn:Hpid; [destruct (pid =? 0)%Z eqn:Hz|].
  - erewrite run_bind; [|reflexivity].
    erewrite run_bind; [|apply waitForChrome_exhausts, Hnever].
    eexists [_], _. split; [reflexivity|]. simpl. by rewrite <- app_assoc.
  - erewrite run_bind; [|erewrite run_bind; [|reflexivity]; apply write_ledger_unhindered].
    erewrite run_bind; [|apply waitForChrome_exhausts, Hnever].
    eexists [_; _], _. split; [reflexivity|]. simpl. by rewrite <- !app_assoc.
  - erewrite run_bind; [|reflexivity].
    erewrite run_bind; [|apply waitForChrome_exhausts, Hnever].
    eexists [_], _. split; [reflexivity|]. simpl. by rewrite <- app_assoc.
Qed.

(** With a child that has a process id, the launch is the spawn and the
    write of the ledger, and the wait that follows runs out. *)
Lemma launchChrome_with_pid_times_out path dir (w : World Cli.Globals) :
  child_has_pid env →
  ∃ pid now w',
    Cli.launchChrome env path dir w = (Throw (Error "Chrome failed to start"), w') ∧
    trace w'
    = trace w ++ [EvSpawn path (Cli.chromeArgs dir) (StdioAll ignore) false;
                  EvWriteFileSync (pidFilePath env) (Cli.ledger_entry pid now)]
              ++ probe_rounds 50.
Proof.
  intros Hchild. unfold Cli.launchChrome.
  erewrite run_bind; [|apply spawn_unhindered].
  erewrite run_bind; [|reflexivity].
  unfold Cli.storePid. cbn [child_pid].
  destruct (Hchild (trace w ++ [EvSpawn path (Cli.chromeArgs dir) (StdioAll ignore) false]))
    as (pid & -> & Hpid).
  apply Z.eqb_neq in Hpid. rewrite Hpid.
  erewrite run_bind; [|erewrite run_bind; [|reflexivity]; apply write_ledger_unhindered].
  erewrite run_bind; [|apply waitForChrome_exhausts, Hnever].
  eexists pid, _, _. split; [reflexivity|]. simpl. by rewrite <- !app_assoc.
Qed.

End StartupTimeout.

(** C4. Against an endpoint that never becomes ready, the readiness wait of
    [initBrowser] makes exactly 50 probes, each followed by a pause of
    300 ms, does not throw and ends with [chromeReady] false, touching
    neither the module's variables nor the ledger; [initBrowser] then fails
    with the error "Chrome failed to start", having made, after its first
    probe, the launch, the write of the ledger and these 50 rounds. The
    launched child is one that has a process id. *)
Theorem readiness_wait_bounded env (w : World Cli.Globals) path :
  never_ready env →
  launch_unhindered env →
  child_has_pid env →
  Cli.stagehandInstance (globals w) = None →
  findLocalChrome env = Some path →
  Cli.waitForChrome env 50 w
  = (Ok false, {| globals := globals w; pidFile := pidFile w;
                  trace := trace w ++ probe_rounds 50 |}) ∧
  List.length (filter (λ e, is_fetch e = true) (probe_rounds 50)) = 50%nat ∧
  ∃ pid now w',
    Cli.initBrowser env w = (Throw (Error "Chrome failed to start"), w') ∧
    trace w'
    = trace w ++ [EvFetch version_url None; cli_spawn_event env path;
                  EvWriteFileSync (pidFilePath env) (Cli.ledger_entry pid now)]
              ++ probe_rounds 50.
Proof.
  intros Hnever Hlaunch Hchild Hnone Hfound.
  split; [by apply waitForChrome_exhausts|]. split; [reflexivity|].
  unfold Cli.initBrowser.
  erewrite run_bind; [|reflexivity]. rewrite Hnone.
  rewrite (findLocalChrome_truthy _ _ Hfound). cbn [negb].
  erewrite run_bind; [|apply (probe_not_ready env Hnever None w true)].
  cbn iota.
  destruct (launchChrome_with_pid_times_out env Hnever Hlaunch
              (default "" (findLocalChrome env))
              (join env (cwd env) ".chrome-profile")
              (record_event (EvFetch version_url None) w) Hchild)
    as (pid & now & w' & Hrun & Htr).
  exists pid, now, w'. unfold mbind, M_bind. rewrite Hrun. split; [done|].
  rewrite Htr, Hfound. unfold cli_spawn_event. simpl. by rewrite <- !app_assoc.
Qed.

Lemma readiness_wait_bounded_witness :
  ∃ pid now w',
    Cli.initBrowser quiet_env (fresh None) = (Throw (Error "Chrome failed to start"), w') ∧
    trace w'
    = trace (fresh None)
      ++ [EvFetch version_url None; cli_spawn_event quiet_env "/usr/bin/google-chrome";
          EvWriteFileSync (pidFilePath quiet_env) (Cli.ledger_entry pid now)]
      ++ probe_rounds 50.
Proof.
  refine (proj2 (proj2 (readiness_wait_bounded quiet_env (fresh None)
                          "/usr/bin/google-chrome" _ _ _ _ _))).
  - intros h url timeout. right. reflexivity.
  - intros h e _. reflexivity.
  - intros h. exists 4242. split; [reflexivity|discriminate].
  - reflexivity.
  - reflexivity.
Defined.

Section Extends.
Context {G : Type}.

Lemma extends_refl good (w : World G) : extends (trace w) good w.
Proof. exists []. by rewrite app_nil_r. Qed.

Lemma extends_record base good e (w : World G) :
  good e = true → extends base good w → extends base good (record_event e w).
Proof.
  intros He (added & Htr & Hgood). exists (added ++ [e]). simpl.
  rewrite Htr, <- app_assoc, forallb_app, Hgood. simpl. by rewrite He.
Qed.

Lemma extends_same_trace base good (w w' : World G) :
  trace w' = trace w → extends base good w → extends base good w'.
Proof. intros Heq (added & Htr & Hgood). exists added. by rewrite Heq. Qed.

Lemma extends_weaken base (good good' : Event → bool) (w : World G) :
  (∀ e, good e = true → good' e = true) → extends base good w → extends base good' w.
Proof.
  intros Himp (added & Htr & Hgood). exists added. split; [done|].
  rewrite forallb_forall in Hgood. apply forallb_forall. auto.
Qed.

End Extends.

(** Closes the side conditions of [preserves_step] for an invariant made of
    [extends] and of equations on the world. *)
Ltac keep_inv :=
  let w := fresh "w" in
  let H := fresh "H" in
  intros w H;
  first
    [ by apply extends_record
    | by eapply extends_same_trace; [|exact H]
    | hnf in H; hnf;
      repeat match type of H with _ ∧ _ => destruct H as [? H] end;
      repeat split; simpl;
      first [ done
            | by apply extends_record
            | by eapply extends_same_trace; [|eassumption] ] ].

Section Reuse.
Variable env : Env.

Lemma connectStagehand_reuse_inv base g0 f :
  preserves (reuse_inv base g0 f) (Cli.connectStagehand env).
Proof.
  unfold Cli.connectStagehand.
  repeat (apply preserves_bind; [|intros ?]);
    try (apply cli_waitForPage_preserves);
    autounfold with prog; repeat preserves_step; keep_inv.
Qed.

(** C5. When the first probe of the control endpoint finds it ready,
    [initBrowser] launches nothing and writes no ledger: no [spawn] and no
    write of the ledger are among the calls it makes, and the flag
    [weStartedChrome], the child handle and the ledger file are left as
    they were (at the start of an invocation the flag is false). *)
Theorem reuse_never_launches (w : World Cli.Globals) path :
  Cli.stagehandInstance (globals w) = None →
  findLocalChrome env = Some path →
  throws env (trace w ++ [EvFetch version_url None]) = false →
  response_ok env (trace w ++ [EvFetch version_url None]) = true →
  extends (trace w) no_launch (Cli.initBrowser env w).2 ∧
  Cli.weStartedChrome (globals (Cli.initBrowser env w).2) = Cli.weStartedChrome (globals w) ∧
  Cli.chromeProcess (globals (Cli.initBrowser env w).2) = Cli.chromeProcess (globals w) ∧
  pidFile (Cli.initBrowser env w).2 = pidFile w.
Proof.
  intros Hnone Hfound Hth Hok.
  unfold Cli.initBrowser.
  erewrite run_bind; [|reflexivity]. rewrite Hnone.
  rewrite (findLocalChrome_truthy _ _ Hfound). cbn [negb].
  erewrite run_bind; cycle 1.
  { unfold fetch_ok, console_error. run. rewrite Hth. simpl. rewrite Hok. reflexivity. }
  erewrite run_bind; [|reflexivity].
  apply (connectStagehand_reuse_inv (trace w) (globals w) (pidFile w)).
  repeat split; simpl; try done.
  eexists [_; _]. simpl. by rewrite <- app_assoc.
Qed.

End Reuse.

Lemma reuse_never_launches_witness :
  extends (trace (fresh None)) no_launch
    (Cli.initBrowser (with_response_ok always_ready quiet_env) (fresh None)).2 ∧
  Cli.weStartedChrome
    (globals (Cli.initBrowser (with_response_ok always_ready quiet_env) (fresh None)).2)
  = false.
Proof.
  destruct (reuse_never_launches (with_response_ok always_ready quiet_env) (fresh None)
              "/usr/bin/google-chrome") as (H1 & H2 & _); try reflexivity.
  split; [exact H1|exact H2].
Defined.

Section Launch.
Variable env : Env.
Hypothesis Hlaunch : launch_unhindered env.

Lemma cli_waitForChrome_preserves (Inv : World Cli.Globals → Prop) n :
  (∀ w, Inv w → Inv (record_event (EvFetch version_url None) w)) →
  (∀ w, Inv w → Inv (record_event (EvSleep 300) w)) →
  (∀ w, Inv w →
        Inv (Build_World (Cli.set_weStartedChrome true (globals w)) (pidFile w) (trace w))) →
  preserves Inv (Cli.waitForChrome env n).
Proof.
  intros H1 H2 H3.
  induction n as [|n IH]; simpl; autounfold with prog; repeat preserves_step; auto.
Qed.

Lemma connectStagehand_no_launch base f :
  preserves (λ w, extends base no_launch w ∧ pidFile w = f) (Cli.connectStagehand env).
Proof.
  intros w [H1 H2].
  destruct (connectStagehand_reuse_inv env base (globals w) f w) as (? & _ & _ & ?); [|done].
  by repeat split.
Qed.

(** From the readiness wait to the end of [initBrowser]. *)
Lemma wait_and_connect_no_launch base f :
  preserves (λ w, extends base no_launch w ∧ pidFile w = f)
    ((chromeReady ← Cli.waitForChrome env 50;
      if chromeReady : bool then mret true else throw (Error "Chrome failed to start"))
     ≫= λ _, Cli.connectStagehand env).
Proof.
  apply preserves_bind; [|intros _; apply connectStagehand_no_launch].
  apply preserves_bind; [|intros []; [apply preserves_ret|apply preserves_throw]].
  apply cli_waitForChrome_preserves; keep_inv.
Qed.

Lemma bind_assoc {G A B C} (m : M G A) (f : A → M G B) (g : B → M G C) w :
  ((m ≫= f) ≫= g) w = (m ≫= λ a, f a ≫= g) w.
Proof. unfold mbind, M_bind. by destruct (m w) as [[a|e] w1]. Qed.

End Launch.

(** C6 (amended). When the first probe finds the endpoint not ready and a
    browser executable is found, [initBrowser] launches exactly once, right
    after the probe. When the child has a process id (not zero), the next
    call writes the ledger entry keyed by that id, before the readiness wait
    begins; nothing is launched or written afterwards and the entry is on
    disk. When the child has no process id, no ledger is written. Neither
    [spawn] nor the write is taken to fail here. *)
Theorem launch_records_ledger env (w : World Cli.Globals) path :
  Cli.stagehandInstance (globals w) = None →
  findLocalChrome env = Some path →
  throws env (trace w ++ [EvFetch version_url None]) = true ∨
  response_ok env (trace w ++ [EvFetch version_url None]) = false →
  launch_unhindered env →
  match spawned_pid env (trace w ++ [EvFetch version_url None; cli_spawn_event env path]) with
  | Some pid =>
      if (pid =? 0)%Z then
        launched_without_entry
          (trace w ++ [EvFetch version_url None; cli_spawn_event env path]) (pidFile w)
          (Cli.initBrowser env w).2
      else
        launched_with_entry env
          (trace w ++ [EvFetch version_url None; cli_spawn_event env path])
          (Cli.ledger_entry pid
             (date_now env (trace w ++ [EvFetch version_url None; cli_spawn_event env path])))
          (Cli.initBrowser env w).2
  | None =>
      launched_without_entry
        (trace w ++ [EvFetch version_url None; cli_spawn_event env path]) (pidFile w)
        (Cli.initBrowser env w).2
  end.
Proof.
  intros Hnone Hfound Hprobe Hlaunch.
  unfold Cli.initBrowser.
  erewrite run_bind; [|reflexivity]. rewrite Hnone.
  rewrite (findLocalChrome_truthy _ _ Hfound). cbn [negb].
  erewrite run_bind; [|apply (probe_fails env None w true Hprobe)].
  cbn iota. rewrite Hfound. change (default "" (Some path)) with path.
  unfold Cli.launchChrome.
  rewrite bind_assoc. erewrite run_bind; [|by apply spawn_unhindered].
  rewrite bind_assoc. erewrite run_bind; [|reflexivity].
  rewrite bind_assoc.
  unfold Cli.storePid. cbn [child_pid trace record_event].
  replace ((trace w ++ [EvFetch version_url None])
           ++ [EvSpawn path (Cli.chromeArgs (join env (cwd env) ".chrome-profile"))
                 (StdioAll ignore) false])
    with (trace w ++ [EvFetch version_url None; cli_spawn_event env path])
    by (by rewrite <- app_assoc).
  set (h := trace w ++ [EvFetch version_url None; cli_spawn_event env path]).
  destruct (spawned_pid env h) as [pid|] eqn:Hpid; [destruct (pid =? 0)%Z eqn:Hz|].
  - erewrite run_bind; [|reflexivity].
    apply (wait_and_connect_no_launch env h (pidFile w)).
    split; [|done]. exists []. by rewrite app_nil_r.
  - erewrite run_bind;
      [|erewrite run_bind; [|reflexivity]; by apply write_ledger_unhindered].
    apply (wait_and_connect_no_launch env
             (h ++ [EvWriteFileSync (pidFilePath env) (Cli.ledger_entry pid (date_now env h))])
             (Some (Document (Cli.ledger_entry pid (date_now env h))))).
    split; [|done]. exists []. by rewrite app_nil_r.
  - erewrite run_bind; [|reflexivity].
    apply (wait_and_connect_no_launch env h (pidFile w)).
    split; [|done]. exists []. by rewrite app_nil_r.
Qed.

Lemma launch_records_ledger_witness :
  launched_with_entry quiet_env
    [EvFetch version_url None; cli_spawn_event quiet_env "/usr/bin/google-chrome"]
    ledger_4242
    (Cli.initBrowser quiet_env (fresh None)).2.
Proof.
  apply (launch_records_ledger quiet_env (fresh None) "/usr/bin/google-chrome").
  - reflexivity.
  - reflexivity.
  - right. reflexivity.
  - intros h e _. reflexivity.
Defined.

(** C6 as stated fails: the executable is found and the first probe is not
    ready, the launcher is invoked once, but the child has no process id and
    no ledger entry is written. *)
Lemma launch_without_pid_leaves_no_ledger :
  findLocalChrome (with_spawned_pid no_pid quiet_env) = Some "/usr/bin/google-chrome" ∧
  response_ok (with_spawned_pid no_pid quiet_env)
    (trace (fresh None) ++ [EvFetch version_url None]) = false ∧
  List.length (filter (λ e, is_spawn e = true)
    (trace (Cli.initBrowser (with_spawned_pid no_pid quiet_env) (fresh None)).2)) = 1%nat ∧
  List.length (filter (λ e, is_ledger_write e = true)
    (trace (Cli.initBrowser (with_spawned_pid no_pid quiet_env) (fresh None)).2)) = 0%nat ∧
  pidFile (Cli.initBrowser (with_spawned_pid no_pid quiet_env) (fresh None)).2 = None.
Proof. repeat split; vm_compute; reflexivity. Qed.

Section LauncherStdio.
Variable env : Env.

Lemma tools_waitForChrome_preserves (Inv : World Tools.Globals → Prop) n :
  (∀ w, Inv w → Inv (record_event (EvFetch version_url None) w)) →
  (∀ w, Inv w → Inv (record_event (EvSleep 300) w)) →
  preserves Inv (Tools.waitForChrome env n).
Proof.
  intros H1 H2.
  induction n as [|n IH]; simpl; autounfold with prog; repeat preserves_step; auto.
Qed.

Lemma initBrowser_events base :
  preserves (extends base cli_init_event) (Cli.initBrowser env).
Proof.
  unfold Cli.initBrowser, Cli.connectStagehand. autounfold with prog.
  repeat first [ apply cli_waitForChrome_preserves
               | apply cli_waitForPage_preserves
               | preserves_step ];
    keep_inv.
Qed.

Lemma getStagehand_events base :
  preserves (extends base tools_init_event) (Tools.getStagehand env).
Proof.
  unfold Tools.getStagehand. autounfold with prog.
  repeat first [ apply tools_waitForChrome_preserves
               | apply tools_waitForPage_preserves
               | preserves_step ];
    keep_inv.
Qed.

End LauncherStdio.

Section LauncherStdioClaim.
Variable env : Env.

Lemma cli_init_event_ignores_stdio e : cli_init_event e = true → spawn_ignores_stdio e = true.
Proof. destruct e as [| ? ? [[]|] [] | | | | | | | | | | | | | | | | | | | ]; done. Qed.

Lemma tools_init_event_pipes_output e : tools_init_event e = true → spawn_pipes_output e = true.
Proof. destruct e as [| ? ? [|[] [] []] [] | | | | | | | | | | | | | | | | | | | ]; done. Qed.

Lemma getStagehand_attaches_listeners (w : World Tools.Globals) path :
  Tools.stagehandInstance (globals w) = None →
  findLocalChrome env = Some path →
  throws env (trace w ++ [tools_spawn_event env path]) = false →
  ∃ rest,
    trace (Tools.getStagehand env w).2
    = trace w ++ tools_spawn_event env path :: tools_listeners ++ rest.
Proof.
  intros Hnone Hfound Hspawn.
  unfold Tools.getStagehand.
  erewrite run_bind; [|reflexivity]. rewrite Hnone.
  unfold Tools.launchAndConnect.
  rewrite (findLocalChrome_truthy _ _ Hfound). cbn [negb].
  rewrite Hfound. change (default "" (Some path)) with path.
  rewrite bind_assoc. erewrite run_bind; [|reflexivity].
  rewrite bind_assoc. erewrite run_bind; cycle 1.
  { unfold spawn. run. unfold tools_spawn_event in Hspawn. rewrite Hspawn. reflexivity. }
  do 4 (rewrite bind_assoc; erewrite run_bind; [|reflexivity]).
  match goal with
  | |- ∃ rest, trace (?R ?w1).2 = _ =>
      assert (preserves (extends (trace w1) (λ _, true)) R) as Hrest
  end.
  { autounfold with prog.
    repeat first [ apply tools_waitForChrome_preserves
                 | apply tools_waitForPage_preserves
                 | preserves_step ];
      keep_inv. }
  match goal with
  | |- ∃ rest, trace (?R ?w1).2 = _ =>
      destruct (Hrest w1 (extends_refl _ w1)) as (rest & -> & _)
  end.
  exists rest. simpl. unfold tools_spawn_event. by rewrite <- !app_assoc.
Qed.

(** C8 (amended). The launcher of [initBrowser] (cli.ts) starts the browser
    with its standard input, output and error all ignored. The launcher of
    [getStagehand] (stagehand-tools.ts) ignores the standard input only: it
    pipes the standard output and error of the browser and attaches a
    listener for the data of each right after the launch. *)
Theorem launcher_stdio :
  (∀ w : World Cli.Globals,
     extends (trace w) spawn_ignores_stdio (Cli.initBrowser env w).2) ∧
  (∀ w : World Tools.Globals,
     extends (trace w) spawn_pipes_output (Tools.getStagehand env w).2) ∧
  (∀ (w : World Tools.Globals) path,
     Tools.stagehandInstance (globals w) = None →
     findLocalChrome env = Some path →
     throws env (trace w ++ [tools_spawn_event env path]) = false →
     ∃ rest,
       trace (Tools.getStagehand env w).2
       = trace w ++ tools_spawn_event env path :: tools_listeners ++ rest).
Proof.
  split; [|split].
  - intros w. eapply extends_weaken; [apply cli_init_event_ignores_stdio|].
    apply initBrowser_events, extends_refl.
  - intros w. eapply extends_weaken; [apply tools_init_event_pipes_output|].
    apply getStagehand_events, extends_refl.
  - apply getStagehand_attaches_listeners.
Qed.

End LauncherStdioClaim.

Lemma launcher_stdio_witness :
  ∃ rest,
    trace (Tools.getStagehand quiet_env fresh_tools).2
    = trace fresh_tools
      ++ tools_spawn_event quiet_env "/usr/bin/google-chrome" :: tools_listeners ++ rest.
Proof.
  apply (proj2 (proj2 (launcher_stdio quiet_env)) fresh_tools "/usr/bin/google-chrome");
    reflexivity.
Defined.

(** C8 as stated fails: the launcher of [getStagehand] pipes the standard
    output and error of the browser. *)
Lemma getStagehand_pipes_stdio :
  In (EvSpawn "/usr/bin/google-chrome"
        ["--remote-debugging-port=9222"; "--user-data-dir=/work/.chrome-profile"]
        (StdioEach ignore pipe pipe) false)
     (trace (Tools.getStagehand quiet_env fresh_tools).2) ∧
  forallb spawn_ignores_stdio (trace (Tools.getStagehand quiet_env fresh_tools).2) = false.
Proof. split; [left|]; vm_compute; reflexivity. Qed.

Section SchemaConversion.

Lemma zod_of_known type v : zod_of type = Some v → type ∈ known_types.
Proof.
  destruct type as [| | |s| |]; try done. simpl.
  destruct (String.eqb s "string") eqn:E1; [apply String.eqb_eq in E1 as ->; set_solver|].
  destruct (String.eqb s "number") eqn:E2; [apply String.eqb_eq in E2 as ->; set_solver|].
  destruct (String.eqb s "boolean") eqn:E3; [apply String.eqb_eq in E3 as ->; set_solver|].
  done.
Qed.

Lemma convert_field_lookup acc entry key v :
  convert_field acc entry !! key = Some v →
  acc !! key = Some v ∨ (entry.1 = key ∧ zod_of entry.2 = Some v).
Proof.
  unfold convert_field, set_property.
  destruct (zod_of entry.2) as [v'|] eqn:Hz; [|auto].
  destruct (String.eqb entry.1 "__proto__"); [auto|].
  destruct (decide (entry.1 = key)) as [->|Hne].
  - rewrite lookup_insert_eq. intros [= ->]. auto.
  - rewrite lookup_insert_ne by done. auto.
Qed.

Lemma foldl_convert_lookup entries acc key v :
  foldl convert_field acc entries !! key = Some v →
  acc !! key = Some v ∨ ∃ type, (key, type) ∈ entries ∧ zod_of type = Some v.
Proof.
  revert acc. induction entries as [|[k t] entries IH]; intros acc; simpl; [auto|].
  intros H. apply IH in H as [H|(type & Hin & Hz)].
  - apply convert_field_lookup in H as [H|[Hk Hz]]; [auto|].
    simpl in *. subst k. right. exists t. split; [left|done].
  - right. exists type. split; [by right|done].
Qed.

Lemma toZodSchema_lookup entries key v :
  toZodSchema entries !! key = Some v →
  ∃ type, (key, type) ∈ entries ∧ zod_of type = Some v.
Proof.
  intros H. apply foldl_convert_lookup in H as [H|H]; [|done].
  by rewrite lookup_empty in H.
Qed.

Lemma NoDup_fst_inj (entries : list (string * Json)) key t t' :
  NoDup entries.*1 → (key, t) ∈ entries → (key, t') ∈ entries → t = t'.
Proof.
  induction entries as [|[k x] entries IH]; simpl; intros Hnd H1 H2; [by inversion H1|].
  apply NoDup_cons in Hnd as [Hk Hnd].
  apply elem_of_cons in H1 as [H1|H1]; apply elem_of_cons in H2 as [H2|H2];
    simplify_eq.
  - done.
  - destruct Hk. apply list_elem_of_fmap. by exists (k, t').
  - destruct Hk. apply list_elem_of_fmap. by exists (k, t).
  - by apply IH.
Qed.

Lemma toZodSchema_drops entries key type :
  NoDup entries.*1 → (key, type) ∈ entries → type ∉ known_types →
  toZodSchema entries !! key = None.
Proof.
  intros Hnd Hin Hun. destruct (toZodSchema entries !! key) as [v|] eqn:E; [|done].
  apply toZodSchema_lookup in E as (type' & Hin' & Hz).
  rewrite (NoDup_fst_inj entries key type type' Hnd Hin Hin') in Hun.
  by apply zod_of_known in Hz.
Qed.

Lemma convert_field_other acc entry key :
  entry.1 ≠ key → convert_field acc entry !! key = acc !! key.
Proof.
  intros Hne. unfold convert_field, set_property.
  destruct (zod_of entry.2); [|done].
  destruct (String.eqb entry.1 "__proto__"); [done|]. by rewrite lookup_insert_ne.
Qed.

Lemma foldl_convert_other entries acc key :
  key ∉ entries.*1 → foldl convert_field acc entries !! key = acc !! key.
Proof.
  revert acc. induction entries as [|[k t] entries IH]; intros acc Hnot; simpl; [done|].
  simpl in Hnot. apply not_elem_of_cons in Hnot as [Hne Hnot].
  rewrite IH by done. by apply convert_field_other.
Qed.

Lemma foldl_convert_keeps entries acc key type v :
  NoDup entries.*1 → (key, type) ∈ entries → zod_of type = Some v → key ≠ "__proto__" →
  foldl convert_field acc entries !! key = Some v.
Proof.
  intros Hnd Hin Hz Hproto. revert acc Hnd Hin.
  induction entries as [|[k t] entries IH]; intros acc Hnd Hin; [by inversion Hin|].
  simpl in Hnd. apply NoDup_cons in Hnd as [Hk Hnd].
  apply elem_of_cons in Hin as [[= <- <-]|Hin]; simpl.
  - rewrite foldl_convert_other by done.
    unfold convert_field, set_property. simpl. rewrite Hz.
    destruct (String.eqb key "__proto__") eqn:E; [by apply String.eqb_eq in E|].
    apply lookup_insert_eq.
  - by apply IH.
Qed.

Lemma zod_of_type_name v : zod_of (type_name v) = Some v.
Proof. by destruct v. Qed.

Lemma zod_of_inv type v : zod_of type = Some v → type = type_name v.
Proof.
  destruct type as [| | |s| |]; try done. simpl.
  destruct (String.eqb s "string") eqn:E1; [apply String.eqb_eq in E1 as ->; by intros [= <-]|].
  destruct (String.eqb s "number") eqn:E2; [apply String.eqb_eq in E2 as ->; by intros [= <-]|].
  destruct (String.eqb s "boolean") eqn:E3; [apply String.eqb_eq in E3 as ->; by intros [= <-]|].
  done.
Qed.

Lemma type_name_known v : type_name v ∈ known_types.
Proof. destruct v; set_solver. Qed.

(** With the prototype left alone, a field of a known type is not the
    field [__proto__]. *)
Lemma plain_prototype_key entries key type v :
  plain_prototype entries → (key, type) ∈ entries → zod_of type = Some v →
  key ≠ "__proto__".
Proof.
  intros Hplain Hin Hz ->. apply (Hplain type Hin). by apply zod_of_known in Hz.
Qed.

(** The converted schema, field by field: the validator [v] stands at
    [key] exactly when the entries give [key] the type name of [v]. *)
Lemma toZodSchema_exact entries key v :
  NoDup entries.*1 → plain_prototype entries →
  toZodSchema entries !! key = Some v ↔ (key, type_name v) ∈ entries.
Proof.
  intros Hnd Hplain. split.
  - intros H. apply toZodSchema_lookup in H as (type & Hin & Hz).
    by rewrite <- (zod_of_inv type v Hz).
  - intros Hin. apply foldl_convert_keeps with (type := type_name v); try done.
    + apply zod_of_type_name.
    + eapply plain_prototype_key; [done..|apply zod_of_type_name].
Qed.

End SchemaConversion.

Section Extract.
Variable env : Env.

Lemma preserves_extends_weaken {G A} (m : M G A) (good good' : Event → bool) :
  (∀ base, preserves (extends base good) m) →
  (∀ e, good e = true → good' e = true) →
  ∀ base, preserves (extends base good') m.
Proof.
  intros Hm Himp base w (added & Htr & Hgood).
  destruct (Hm (trace w) w (extends_refl _ _)) as (added' & Htr' & Hgood').
  exists (added ++ added'). split; [by rewrite Htr', Htr, app_assoc|].
  rewrite forallb_app, Hgood. simpl.
  rewrite forallb_forall in Hgood'. apply forallb_forall. auto.
Qed.

Lemma cli_init_event_extract entries e :
  cli_init_event e = true → extract_event entries e = true.
Proof. by destruct e. Qed.

Lemma tools_init_event_extract entries e :
  tools_init_event e = true → extract_event entries e = true.
Proof. by destruct e. Qed.

Lemma cli_extract_schema instruction schema entries base :
  object_entries schema = Some entries →
  preserves (extends base (extract_event entries)) (Cli.extract env instruction schema).
Proof.
  intros Hentries. unfold Cli.extract. rewrite Hentries.
  apply preserves_try_catch; [|intros ?; apply preserves_ret].
  apply preserves_bind.
  { apply preserves_extends_weaken with (good := cli_init_event);
      [apply initBrowser_events|apply cli_init_event_extract]. }
  intros s. destruct (page s); repeat preserves_step; try keep_inv.
  intros w Hw. apply extends_record; [|done]. simpl. by apply bool_decide_eq_true.
Qed.

Lemma tools_extract_schema instruction schema entries base :
  object_entries schema = Some entries →
  preserves (extends base (extract_event entries)) (Tools.extract env instruction schema).
Proof.
  intros Hentries. unfold Tools.extract. rewrite Hentries.
  apply preserves_try_catch; [|intros ?; apply preserves_ret].
  apply preserves_bind.
  { apply preserves_extends_weaken with (good := tools_init_event);
      [apply getStagehand_events|apply tools_init_event_extract]. }
  intros s. destruct (page s); repeat preserves_step; try keep_inv.
  intros w Hw. apply extends_record; [|done]. simpl. by apply bool_decide_eq_true.
Qed.

Lemma cli_extract_unfold instruction schema entries (w w1 : World Cli.Globals) s p :
  object_entries schema = Some entries →
  Cli.initBrowser env w = (Ok s, w1) →
  page s = Some p →
  Cli.extract env instruction schema w
  = let call := EvPageExtract p instruction (toZodSchema entries) in
    let shot := EvTakeScreenshot p in
    if throws env (trace w1 ++ [call])
    then (Ok (failure (Rejected call)), record_event call w1)
    else if throws env ((trace w1 ++ [call]) ++ [shot])
         then (Ok (failure (Rejected shot)), record_event shot (record_event call w1))
         else (Ok success, record_event shot (record_event call w1)).
Proof.
  intros Hentries Hinit Hpage.
  unfold Cli.extract, try_catch. unfold mbind at 1, M_bind at 1.
  rewrite Hinit, Hentries, Hpage. run.
  destruct (throws env (trace w1 ++ [_])); simpl; [done|].
  by destruct (throws env _).
Qed.

(** Once [initBrowser] has returned a session with a page, the next call
    of the extract command is the one to the extraction engine, with the
    converted schema; when neither it nor the screenshot fails, the command
    reports success. *)
Lemma cli_extract_run instruction schema entries (w w1 : World Cli.Globals) s p :
  object_entries schema = Some entries →
  Cli.initBrowser env w = (Ok s, w1) →
  page s = Some p →
  (∃ rest,
     trace (Cli.extract env instruction schema w).2
     = trace w1 ++ EvPageExtract p instruction (toZodSchema entries) :: rest) ∧
  (throws env (trace w1 ++ [EvPageExtract p instruction (toZodSchema entries)]) = false →
   throws env (trace w1 ++ [EvPageExtract p instruction (toZodSchema entries);
                            EvTakeScreenshot p]) = false →
   (Cli.extract env instruction schema w).1 = Ok success).
Proof.
  intros Hentries Hinit Hpage.
  rewrite (cli_extract_unfold instruction schema entries w w1 s p Hentries Hinit Hpage).
  cbv zeta. rewrite <- app_assoc. simpl.
  destruct (throws env (trace w1 ++ [_])); simpl.
  - split; [by exists []|done].
  - destruct (throws env _); simpl; (split; [|done]); rewrite <- app_assoc; by eexists.
Qed.

Lemma tools_extract_unfold instruction schema entries (w w1 : World Tools.Globals) s p :
  object_entries schema = Some entries →
  Tools.getStagehand env w = (Ok s, w1) →
  page s = Some p →
  Tools.extract env instruction schema w
  = let call := EvPageExtract p instruction (toZodSchema entries) in
    if throws env (trace w1 ++ [call])
    then (Ok (failure (Rejected call)), record_event call w1)
    else (Ok success, record_event call w1).
Proof.
  intros Hentries Hinit Hpage.
  unfold Tools.extract, try_catch. unfold mbind at 1, M_bind at 1.
  rewrite Hinit, Hentries, Hpage. run.
  by destruct (throws env _).
Qed.

Lemma tools_extract_run instruction schema entries (w w1 : World Tools.Globals) s p :
  object_entries schema = Some entries →
  Tools.getStagehand env w = (Ok s, w1) →
  page s = Some p →
  trace (Tools.extract env instruction schema w).2
  = trace w1 ++ [EvPageExtract p instruction (toZodSchema entries)] ∧
  (throws env (trace w1 ++ [EvPageExtract p instruction (toZodSchema entries)]) = false →
   (Tools.extract env instruction schema w).1 = Ok success).
Proof.
  intros Hentries Hinit Hpage.
  rewrite (tools_extract_unfold instruction schema entries w w1 s p Hentries Hinit Hpage).
  cbv zeta. by destruct (throws env _).
Qed.

(** C10. The extract command (cli.ts) and the extract tool
    (stagehand-tools.ts) build the validation schema from the entries of the
    given object. A field whose declared type is none of "string", "number"
    and "boolean" has no validator in it; a validator stands at a key
    exactly when the object gives that key the type name of the validator,
    so the three types, and only they, produce validators. No error is
    raised on the way: once the session is acquired, the next call is the
    one to the extraction engine, which is handed this converted schema (as
    it is whenever it is called), and the command succeeds unless the engine
    or the screenshot fails. The keys of the object are distinct, and none
    of its fields of a known type is named [__proto__]. *)
Theorem extract_drops_unknown_types instruction schema entries :
  object_entries schema = Some entries →
  NoDup entries.*1 →
  plain_prototype entries →
  (∀ key type,
     (key, type) ∈ entries → type ∉ known_types → toZodSchema entries !! key = None) ∧
  (∀ key v, toZodSchema entries !! key = Some v ↔ (key, type_name v) ∈ entries) ∧
  (∀ (w w1 : World Cli.Globals) s p,
     Cli.initBrowser env w = (Ok s, w1) →
     page s = Some p →
     (∃ rest,
        trace (Cli.extract env instruction schema w).2
        = trace w1 ++ EvPageExtract p instruction (toZodSchema entries) :: rest) ∧
     (throws env (trace w1 ++ [EvPageExtract p instruction (toZodSchema entries)]) = false →
      throws env (trace w1 ++ [EvPageExtract p instruction (toZodSchema entries);
                               EvTakeScreenshot p]) = false →
      (Cli.extract env instruction schema w).1 = Ok success)) ∧
  (∀ (w w1 : World Tools.Globals) s p,
     Tools.getStagehand env w = (Ok s, w1) →
     page s = Some p →
     trace (Tools.extract env instruction schema w).2
     = trace w1 ++ [EvPageExtract p instruction (toZodSchema entries)] ∧
     (throws env (trace w1 ++ [EvPageExtract p instruction (toZodSchema entries)]) = false →
      (Tools.extract env instruction schema w).1 = Ok success)) ∧
  (∀ w : World Cli.Globals,
     extends (trace w) (extract_event entries) (Cli.extract env instruction schema w).2) ∧
  (∀ w : World Tools.Globals,
     extends (trace w) (extract_event entries) (Tools.extract env instruction schema w).2).
Proof.
  intros Hentries Hnd Hplain. split; [|split; [|split; [|split; [|split]]]].
  - intros key type. by apply toZodSchema_drops.
  - intros key v. by apply toZodSchema_exact.
  - intros w w1 s p. by apply cli_extract_run.
  - intros w w1 s p. by apply tools_extract_run.
  - intros w. by apply cli_extract_schema, extends_refl.
  - intros w. by apply tools_extract_schema, extends_refl.
Qed.

End Extract.

Lemma mixed_schema_NoDup : NoDup mixed_schema.*1.
Proof. apply (bool_decide_unpack _). reflexivity. Qed.

Lemma mixed_schema_plain : plain_prototype mixed_schema.
Proof.
  intros type Hin.
  repeat (apply elem_of_cons in Hin as [Hin|Hin]; [discriminate Hin|]).
  by apply elem_of_nil in Hin.
Qed.

Lemma extract_drops_unknown_types_witness :
  toZodSchema mixed_schema !! "tags" = None ∧
  toZodSchema mixed_schema !! "title" = Some z_string ∧
  (Cli.extract quiet_env "the title and the tags" (JObj mixed_schema) connected).1
  = Ok success.
Proof.
  pose proof (extract_drops_unknown_types quiet_env "the title and the tags"
                (JObj mixed_schema) mixed_schema eq_refl
                mixed_schema_NoDup mixed_schema_plain) as (Hdrop & Hexact & Hcli & _).
  split; [|split].
  - apply (Hdrop "tags" (JStr "array")).
    + apply list_elem_of_further, list_elem_of_here.
    + intros H. repeat (apply elem_of_cons in H as [H|H]; [discriminate H|]).
      by apply elem_of_nil in H.
  - apply Hexact. apply list_elem_of_here.
  - apply (proj2 (Hcli connected connected
                    {| stagehand := Some connected_stagehand;
                       page := Some (PageOf connected_stagehand) |}
                    (PageOf connected_stagehand) eq_refl eq_refl)); reflexivity.
Defined.

Example toZodSchema_mixed : toZodSchema mixed_schema = {[ "title" := z_string ]}.
Proof. reflexivity. Qed.

Section KillSafety.
Variable env : Env.

Lemma snoc_decompose {A} (l pre post : list A) (x y : A) :
  l ++ [x] = pre ++ y :: post →
  (post = [] ∧ pre = l ∧ y = x) ∨ ∃ post', post = post' ++ [x] ∧ l = pre ++ y :: post'.
Proof.
  destruct post as [|z post _] using rev_ind; intros H.
  - left. apply (app_inj_tail l pre x y) in H as [-> ->]. done.
  - right. exists post.
    change (pre ++ y :: post ++ [z]) with (pre ++ (y :: post) ++ [z]) in H.
    rewrite app_assoc in H. by apply app_inj_tail in H as [-> ->].
Qed.

Lemma kills_confirmed_refl (w : World Cli.Globals) f : kills_confirmed env (trace w) f w.
Proof.
  exists []. split; [by rewrite app_nil_r|]. intros pre e post pid H.
  by destruct pre.
Qed.

Lemma kills_confirmed_record base f e (w : World Cli.Globals) :
  forced_kill_of e = None →
  kills_confirmed env base f w → kills_confirmed env base f (record_event e w).
Proof.
  intros He (added & Htr & Hall). exists (added ++ [e]). simpl.
  split; [by rewrite Htr, <- app_assoc|].
  intros pre e' post pid Hsplit Hkill.
  apply snoc_decompose in Hsplit as [(_ & _ & ->)|(post' & _ & Hadded)]; [congruence|].
  by apply (Hall pre e' post' pid).
Qed.

Lemma kills_confirmed_kill base f e pid (w : World Cli.Globals) :
  forced_kill_of e = Some pid →
  ledger_pid f = Some pid →
  lookup_confirms env (trace w) pid →
  kills_confirmed env base f w → kills_confirmed env base f (record_event e w).
Proof.
  intros He Hpid Hconf (added & Htr & Hall). exists (added ++ [e]). simpl.
  split; [by rewrite Htr, <- app_assoc|].
  intros pre e' post pid' Hsplit Hkill.
  apply snoc_decompose in Hsplit as [(_ & -> & ->)|(post' & _ & Hadded)].
  - rewrite He in Hkill. injection Hkill as <-. by rewrite <- Htr.
  - by apply (Hall pre e' post' pid').
Qed.

Lemma kills_confirmed_same_trace base f (w w' : World Cli.Globals) :
  trace w' = trace w → kills_confirmed env base f w → kills_confirmed env base f w'.
Proof. intros Heq (added & Htr & Hall). exists added. by rewrite Heq. Qed.

End KillSafety.

Ltac keep_close_inv :=
  let w := fresh "w" in
  let H1 := fresh "H" in
  let H2 := fresh "H" in
  intros w [H1 H2]; split;
  [ first [ by apply kills_confirmed_record
          | by eapply kills_confirmed_same_trace; [|exact H1] ]
  | done ].

Section CloseBrowserKills.
Variable env : Env.
Variable base : list Event.
Variable f0 : option FileContent.

Lemma verify_keeps_close_inv pid :
  preserves (close_inv env base f0) (verifyIsChromeProcess env pid).
Proof. autounfold with prog. repeat preserves_step; keep_close_inv. Qed.

Lemma verify_confirms pid :
  hoare (close_inv env base f0) (verifyIsChromeProcess env pid)
    (λ r w, close_inv env base f0 w ∧
            match r with
            | Ok true => lookup_confirms env (trace w) pid
            | _ => True
            end).
Proof.
  intros w Hw. split; [by apply verify_keeps_close_inv|].
  destruct (verifyIsChromeProcess env pid w) as [[[]|] w1] eqn:Hrun; simpl; [|done..].
  by exists w, w1.
Qed.

Lemma read_ledger_document :
  hoare (close_inv env base f0) (read_ledger env)
    (λ r w, close_inv env base f0 w ∧
            match r with
            | Ok j => f0 = Some (Document j)
            | Throw _ => True
            end).
Proof.
  intros w [H1 H2]. unfold read_ledger. run.
  assert (close_inv env base f0 (record_event (EvReadFileSync (pidFilePath env)) w)) as Hinv.
  { split; [by apply kills_confirmed_record|done]. }
  destruct (throws env _); simpl; [done|].
  destruct w as [g f t]. simpl in *. subst f.
  destruct f0 as [[|j]|]; simpl; (split; [exact Hinv|done]).
Qed.

Lemma forceKill_confirmed pid :
  hoare (λ w, close_inv env base f0 w ∧ ledger_pid f0 = Some pid ∧
              lookup_confirms env (trace w) pid)
    (Cli.forceKill env pid)
    (λ _ w, close_inv env base f0 w).
Proof.
  unfold Cli.forceKill.
  destruct (platform env); apply hoare_emit; intros w ([H1 H2] & Hpid & Hconf);
    assert (∀ e, forced_kill_of e = Some pid →
                 close_inv env base f0 (record_event e w)) as Hkill
      by (intros e He; split; [by eapply kills_confirmed_kill|done]);
    destruct (throws env _); by apply Hkill.
Qed.

Lemma killFromLedger_confirmed :
  preserves (close_inv env base f0) (Cli.killFromLedger env).
Proof.
  unfold Cli.killFromLedger.
  apply preserves_bind; [unfold ledger_exists; repeat preserves_step|].
  intros [|]; [|apply preserves_ret].
  apply hoare_bind with (R := λ j w, close_inv env base f0 w ∧ f0 = Some (Document j)).
  { eapply hoare_conseq; [apply read_ledger_document|done|]. by intros [j|e] w []. }
  intros j. destruct (destructure_pid j) as [pid|] eqn:Hpid.
  2: { apply hoare_throw. by intros w []. }
  apply hoare_bind with
    (R := λ (isChrome : bool) w,
            close_inv env base f0 w ∧ ledger_pid f0 = Some pid ∧
            (isChrome = true → lookup_confirms env (trace w) pid)).
  { intros w [Hinv Hf]. destruct (verify_confirms pid w Hinv) as [Hinv' Hconf].
    assert (ledger_pid f0 = Some pid) as Hledger by (by rewrite Hf).
    destruct (verifyIsChromeProcess env pid w).1 as [[]|]; simpl; [| |done];
      repeat split; try done; apply Hinv'. }
  intros [|].
  - eapply hoare_conseq; [apply (forceKill_confirmed pid)| |done].
    intros w (? & ? & Hconf). auto.
  - apply hoare_ret. by intros w [].
Qed.

Lemma gracefulThenForce_confirmed :
  preserves (close_inv env base f0) (Cli.gracefulThenForce env).
Proof.
  unfold Cli.gracefulThenForce, fetch_ok, new_Stagehand, sleep.
  repeat first [ apply killFromLedger_confirmed | preserves_step ]; keep_close_inv.
Qed.

Lemma closeBrowser_kills_confirmed :
  hoare (close_inv env base f0) (Cli.closeBrowser env)
    (λ _ w, kills_confirmed env base f0 w).
Proof.
  unfold Cli.closeBrowser.
  apply hoare_bind_total; [apply closeOwnInstance_never_throws| |intros _].
  { autounfold with prog. repeat preserves_step; keep_close_inv. }
  apply hoare_bind_total; [apply killOwnChild_never_throws| |intros _].
  { autounfold with prog. repeat preserves_step; keep_close_inv. }
  apply hoare_try_finally with (R := λ _ w, kills_confirmed env base f0 w).
  { eapply hoare_conseq with (Q' := λ _, close_inv env base f0); [|done|by intros ?? []].
    apply preserves_try_catch; [apply gracefulThenForce_confirmed|].
    intros _. apply preserves_ret. }
  intros r.
  apply hoare_conseq with (P' := kills_confirmed env base f0)
                          (Q' := λ _, kills_confirmed env base f0);
    [|done|by intros []].
  change (preserves (kills_confirmed env base f0) (Cli.cleanupPidFile env)).
  autounfold with prog. repeat preserves_step;
    intros w H;
    first [ by apply kills_confirmed_record
          | by eapply kills_confirmed_same_trace; [|exact H] ].
Qed.

End CloseBrowserKills.

Section BrowserNames.
Import JsString.

Lemma lowerChar_isSpace c : isSpace (lowerChar c) = isSpace c.
Proof. by destruct c as [[] [] [] [] [] [] [] []]. Qed.

Lemma toLowerCase_trimStart s : toLowerCase (trimStart s) = trimStart (toLowerCase s).
Proof.
  induction s as [|c s IH]; simpl; [done|].
  rewrite lowerChar_isSpace. by destruct (isSpace c).
Qed.

Lemma toLowerCase_trimEnd s : toLowerCase (trimEnd s) = trimEnd (toLowerCase s).
Proof.
  induction s as [|c s IH]; simpl; [done|].
  rewrite <- IH, lowerChar_isSpace.
  destruct (trimEnd s); simpl; [by destruct (isSpace c)|done].
Qed.

Lemma toLowerCase_trim s : toLowerCase (trim s) = trim (toLowerCase s).
Proof. unfold trim. by rewrite toLowerCase_trimEnd, toLowerCase_trimStart. Qed.

Lemma space_mismatch a c : isSpace a = false → isSpace c = true → Ascii.eqb a c = false.
Proof.
  intros Ha Hc. destruct (Ascii.eqb a c) eqn:E; [|done].
  apply Ascii.eqb_eq in E. congruence.
Qed.

Lemma includes_trimStart a n s :
  isSpace a = false → includes (String a n) (trimStart s) = includes (String a n) s.
Proof.
  intros Ha. induction s as [|c s IH]; [done|].
  cbn [trimStart]. destruct (isSpace c) eqn:Hc; [|done].
  rewrite IH. cbn [includes startsWith]. by rewrite (space_mismatch a c Ha Hc).
Qed.

Lemma startsWith_trimEnd a n s :
  noSpace (String a n) = true →
  startsWith (String a n) (trimEnd s) = startsWith (String a n) s.
Proof.
  revert a s. induction n as [|b n IH]; intros a s Hn;
    cbn [noSpace] in Hn; apply andb_prop in Hn as [Ha Hn];
    apply negb_true_iff in Ha.
  - destruct s as [|c s]; [done|]. cbn [trimEnd].
    destruct (trimEnd s) as [|d rest]; [|by cbn; rewrite !andb_true_r].
    destruct (isSpace c) eqn:Hc; cbn; [|done].
    by rewrite (space_mismatch a c Ha Hc).
  - destruct s as [|c s]; [done|]. cbn [trimEnd startsWith].
    specialize (IH b s Hn).
    destruct (trimEnd s) as [|d rest] eqn:Ht.
    + cbn [startsWith] in IH. rewrite <- IH, andb_false_r.
      destruct (isSpace c); cbn; [done|]. by rewrite andb_false_r.
    + cbn [startsWith] in IH. by rewrite IH.
Qed.

Lemma includes_trimEnd a n s :
  noSpace (String a n) = true →
  includes (String a n) (trimEnd s) = includes (String a n) s.
Proof.
  intros Hn. induction s as [|c s IH]; [done|].
  change (includes (String a n) (String c s))
    with (startsWith (String a n) (String c s) || includes (String a n) s).
  rewrite <- (startsWith_trimEnd a n (String c s) Hn), <- IH.
  cbn [trimEnd]. destruct (trimEnd s) as [|d rest].
  - destruct (isSpace c); cbn; by rewrite ?orb_false_r.
  - done.
Qed.

Lemma includes_trim a n s :
  noSpace (String a n) = true →
  includes (String a n) (trim s) = includes (String a n) s.
Proof.
  intros Hn. unfold trim. rewrite includes_trimEnd by done.
  apply includes_trimStart.
  cbn [noSpace] in Hn. apply andb_prop in Hn as [Ha _]. by apply negb_true_iff in Ha.
Qed.

(** The [trim] of [verifyIsChromeProcess] changes nothing: the test is
    whether the lower-cased output contains the word. *)
Lemma names_browser_loose p stdout : names_browser p stdout = loose_browser_name p stdout.
Proof.
  unfold names_browser, loose_browser_name.
  destruct p; try done; by rewrite toLowerCase_trim, !includes_trim.
Qed.

Lemma toLowerCase_app a b : toLowerCase (a +:+ b) = toLowerCase a +:+ toLowerCase b.
Proof. induction a as [|c a IH]; simpl; [done|]. by rewrite IH. Qed.

Lemma startsWith_app n b : startsWith n (n +:+ b) = true.
Proof. induction n as [|c n IH]; simpl; [done|]. by rewrite Ascii.eqb_refl. Qed.

Lemma includes_startsWith n s : startsWith n s = true → includes n s = true.
Proof. intros H. destruct s; simpl; by rewrite H. Qed.

Lemma includes_app n a b : includes n (a +:+ (n +:+ b)) = true.
Proof.
  induction a as [|c a IH].
  - change (includes n (n +:+ b) = true). apply includes_startsWith, startsWith_app.
  - change (includes n (String c (a +:+ (n +:+ b))) = true).
    cbn [includes]. rewrite IH. apply orb_true_r.
Qed.

End BrowserNames.






(** The third scripted scenario of the specification: a stale ledger whose
    id names no browser. The look-up fails to confirm, no kill is issued
    and the ledger is deleted all the same. *)
Example stale_ledger_of_other_process :
  trace (Cli.closeBrowser (with_response_ok always_ready quiet_env) stale_ledger).2
  = [ EvFetch version_url (Some 2000);
      EvNewStagehand {| cfg_env := "LOCAL"; cfg_verbose := 0;
                        cfg_enableCaching := Some true;
                        cfg_modelName := Some Cli.haiku;
                        cfg_cdpUrl := "http://localhost:9222" |};
      EvStagehandInit {| sh_config := {| cfg_env := "LOCAL"; cfg_verbose := 0;
                                         cfg_enableCaching := Some true;
                                         cfg_modelName := Some Cli.haiku;
                                         cfg_cdpUrl := "http://localhost:9222" |};
                         sh_born := 1 |};
      EvStagehandClose {| sh_config := {| cfg_env := "LOCAL"; cfg_verbose := 0;
                                          cfg_enableCaching := Some true;
                                          cfg_modelName := Some Cli.haiku;
                                          cfg_cdpUrl := "http://localhost:9222" |};
                          sh_born := 1 |};
      EvSleep 2000;
      EvFetch version_url (Some 1000);
      EvReadFileSync "/work/.chrome-pid";
      EvExec (CmdPs (Some (JNum 4242)));
      EvUnlinkSync "/work/.chrome-pid" ] ∧
  pidFile (Cli.closeBrowser (with_response_ok always_ready quiet_env) stale_ledger).2 = None.
Proof. split; reflexivity. Qed.

(** ** Further properties of the code *)

Section FindLocalChrome.
Variable env : Env.

Lemma truthy_append a c b : JsString.truthy (Some (a +:+ String c b)) = true.
Proof. by destruct a. Qed.

Lemma chromePaths_truthy path :
  path ∈ chromePaths env → JsString.truthy (Some path) = true.
Proof.
  unfold chromePaths. intros Hin.
  destruct (platform env);
    repeat (apply elem_of_cons in Hin as [->|Hin]; [first [reflexivity|apply truthy_append]|]);
    by apply elem_of_nil in Hin.
Qed.

Lemma find_first {A} (test : A → bool) (l : list A) x :
  List.find test l = Some x →
  ∃ before after, l = before ++ x :: after ∧ test x = true ∧
                  ∀ y, y ∈ before → test y = false.
Proof.
  induction l as [|a l IH]; simpl; [done|].
  destruct (test a) eqn:Ha.
  - intros [= ->]. exists [], l. split; [done|]. split; [done|].
    intros y Hy. by apply elem_of_nil in Hy.
  - intros H. destruct (IH H) as (before & after & -> & Hx & Hb).
    exists (a :: before), after. split; [done|]. split; [done|].
    intros y Hy. apply elem_of_cons in Hy as [->|Hy]; auto.
Qed.

(** X1. [findLocalChrome] returns the first candidate of the platform's
    list that exists: the candidates before it do not exist. *)
Theorem findLocalChrome_first_existing path :
  findLocalChrome env = Some path →
  ∃ before after,
    chromePaths env = before ++ path :: after ∧
    path_exists env path = true ∧
    ∀ earlier, earlier ∈ before → path_exists env earlier = false.
Proof.
  intros H. apply find_first in H as (before & after & Hsplit & Htest & Hb).
  exists before, after. split; [done|].
  apply andb_prop in Htest as [_ Hex]. split; [done|].
  intros earlier Hin. specialize (Hb earlier Hin).
  rewrite chromePaths_truthy in Hb; [done|]. rewrite Hsplit. set_solver.
Qed.

Lemma findLocalChrome_none :
  findLocalChrome env = None ↔ ∀ path, path ∈ chromePaths env → path_exists env path = false.
Proof.
  unfold findLocalChrome. split.
  - intros H path Hin.
    pose proof (find_none _ _ H path (proj1 (list_elem_of_In _ _) Hin)) as Hp.
    cbv beta in Hp. by rewrite (chromePaths_truthy path Hin) in Hp.
  - intros H. destruct (List.find _ _) as [p|] eqn:Hf; [|done].
    apply find_some in Hf as [Hin Hp]. apply list_elem_of_In in Hin.
    rewrite (H p Hin), andb_false_r in Hp. done.
Qed.

(** X2. [findLocalChrome] returns nothing exactly when no candidate of the
    platform's list exists. *)
Theorem findLocalChrome_none_iff :
  findLocalChrome env = None ↔ ∀ path, path ∈ chromePaths env → path_exists env path = false.
Proof. apply findLocalChrome_none. Qed.

End FindLocalChrome.

Lemma findLocalChrome_first_existing_witness :
  ∃ before after,
    chromePaths quiet_env = before ++ "/usr/bin/google-chrome" :: after ∧
    path_exists quiet_env "/usr/bin/google-chrome" = true ∧
    ∀ earlier, earlier ∈ before → path_exists quiet_env earlier = false.
Proof.
  apply (findLocalChrome_first_existing quiet_env "/usr/bin/google-chrome"). reflexivity.
Defined.

Section VerifyIsChromeProcess.
Context {G : Type}.
Variable env : Env.

Lemma verifyIsChromeProcess_run pid (w : World G) cmd :
  lookup_command (platform env) pid = Some cmd →
  verifyIsChromeProcess env pid w
  = (Ok (negb (throws env (trace w ++ [EvExec cmd])) &&
         loose_browser_name (platform env) (exec_stdout env (trace w ++ [EvExec cmd]))),
     record_event (EvExec cmd) w).
Proof.
  rewrite <- names_browser_loose.
  unfold verifyIsChromeProcess, lookup_command, names_browser, exec. run.
  destruct (platform env) eqn:Hp; intros [= <-]; simpl;
    by destruct (throws env _).
Qed.

(** X3. [verifyIsChromeProcess] returns true exactly when the look-up of
    the platform does not fail and its output, in lower case, contains
    "chrome" (or "chromium", on macOS and Linux). White space around the
    output makes no difference. *)
Theorem verifyIsChromeProcess_true_iff pid (w : World G) :
  (verifyIsChromeProcess env pid w).1 = Ok true ↔
  ∃ cmd,
    lookup_command (platform env) pid = Some cmd ∧
    throws env (trace w ++ [EvExec cmd]) = false ∧
    loose_browser_name (platform env) (exec_stdout env (trace w ++ [EvExec cmd])) = true.
Proof.
  destruct (lookup_command (platform env) pid) as [cmd|] eqn:Hcmd.
  - rewrite (verifyIsChromeProcess_run pid w cmd Hcmd). simpl. split.
    + intros [= H]. apply andb_prop in H as [Hth Hname].
      exists cmd. by apply negb_true_iff in Hth.
    + intros (cmd' & [= <-] & Hth & Hname). by rewrite Hth, Hname.
  - split; [|by intros (cmd & ? & _)].
    unfold verifyIsChromeProcess, lookup_command in *.
    by destruct (platform env).
Qed.

(** X4. The test is by substring: when the look-up succeeds,
    [verifyIsChromeProcess] accepts every process whose reported name
    contains the letters of "chrome" in any case, whatever comes before and
    after them. *)
Theorem verifyIsChromeProcess_accepts_substring pid (w : World G) cmd before word after :
  lookup_command (platform env) pid = Some cmd →
  throws env (trace w ++ [EvExec cmd]) = false →
  exec_stdout env (trace w ++ [EvExec cmd]) = before +:+ (word +:+ after) →
  JsString.toLowerCase word = "chrome" →
  (verifyIsChromeProcess env pid w).1 = Ok true.
Proof.
  intros Hcmd Hth Hout Hword.
  rewrite (verifyIsChromeProcess_run pid w cmd Hcmd), Hth, Hout. simpl. f_equal.
  unfold loose_browser_name. rewrite !toLowerCase_app, Hword, includes_app.
  unfold lookup_command in Hcmd. by destruct (platform env).
Qed.

End VerifyIsChromeProcess.

Lemma verifyIsChromeProcess_true_iff_witness :
  (verifyIsChromeProcess stubborn_chrome (Some (JNum 4242)) stale_ledger).1 = Ok true.
Proof.
  apply (proj2 (verifyIsChromeProcess_true_iff stubborn_chrome (Some (JNum 4242))
                  stale_ledger)).
  exists (CmdPs (Some (JNum 4242))). repeat split; reflexivity.
Defined.

Lemma verifyIsChromeProcess_accepts_substring_witness :
  (verifyIsChromeProcess (with_exec_stdout names_driver quiet_env) (Some (JNum 4242))
     stale_ledger).1 = Ok true.
Proof.
  apply (verifyIsChromeProcess_accepts_substring (with_exec_stdout names_driver quiet_env)
           (Some (JNum 4242)) stale_ledger (CmdPs (Some (JNum 4242)))
           "/usr/local/bin/" "Chrome" "Driver"); reflexivity.
Defined.

Lemma findLocalChrome_none_iff_witness :
  findLocalChrome quiet_env ≠ None.
Proof.
  intros H.
  pose proof (proj1 (findLocalChrome_none_iff quiet_env) H "/usr/bin/google-chrome") as Hp.
  assert ("/usr/bin/google-chrome" ∈ chromePaths quiet_env) as Hin by apply list_elem_of_here.
  specialize (Hp Hin). discriminate Hp.
Defined.

Section SchemaConversionMore.

(** X5. In an object whose keys are distinct and where no field of a known
    type is named [__proto__] (no assignment of the loop reaches the
    prototype of the schema object), a field of type "string", "number" or
    "boolean" has the validator of that type in the converted schema. *)
Theorem toZodSchema_keeps_known entries key v :
  NoDup entries.*1 → plain_prototype entries → (key, type_name v) ∈ entries →
  toZodSchema entries !! key = Some v.
Proof.
  intros Hnd Hplain Hin.
  apply foldl_convert_keeps with (type := type_name v); try done.
  - apply zod_of_type_name.
  - eapply plain_prototype_key; [done..|apply zod_of_type_name].
Qed.

Lemma convert_field_proto acc entry :
  acc !! "__proto__" = None → convert_field acc entry !! "__proto__" = None.
Proof.
  intros Hacc. unfold convert_field, set_property.
  destruct (zod_of entry.2); [|done].
  destruct (String.eqb entry.1 "__proto__") eqn:E; [done|].
  rewrite lookup_insert_ne; [done|]. intros Heq. rewrite Heq in E. discriminate.
Qed.

(** X6. A field named [__proto__] never gets a validator, whatever its
    type: the assignment reaches the prototype of the schema object. *)
Theorem toZodSchema_proto entries : toZodSchema entries !! "__proto__" = None.
Proof.
  unfold toZodSchema. generalize (lookup_empty (M:=gmap string) (A:=ZodType) "__proto__").
  generalize (∅ : gmap string ZodType).
  induction entries as [|e entries IH]; intros acc Hacc; simpl; [done|].
  by apply IH, convert_field_proto.
Qed.

Lemma foldl_convert_none entries acc :
  Forall (λ entry, zod_of entry.2 = None) entries → foldl convert_field acc entries = acc.
Proof.
  intros H. revert acc. induction H as [|e entries He _ IH]; intros acc; simpl; [done|].
  rewrite IH. unfold convert_field. by rewrite He.
Qed.

Lemma zod_of_char c : zod_of (JStr (String c EmptyString)) = None.
Proof.
  simpl. by destruct (Ascii.eqb c "s"), (Ascii.eqb c "n"), (Ascii.eqb c "b").
Qed.

Lemma index_entries_Forall (P : Json → Prop) items :
  Forall P items → Forall (λ entry : string * Json, P entry.2) (index_entries items).
Proof.
  unfold index_entries. intros H. apply Forall_forall. intros [k v] Hin.
  apply list_elem_of_lookup in Hin as [i Hi].
  rewrite list_lookup_imap in Hi.
  destruct (items !! i) as [x|] eqn:Hx; simpl in Hi; [|done].
  injection Hi as _ <-. simpl.
  rewrite Forall_forall in H. apply H. by eapply list_elem_of_lookup_2.
Qed.

(** X7. A schema that is no object and no array has no field: for a
    string, a number or a boolean the converted schema is empty. *)
Theorem toZodSchema_primitive schema entries :
  object_entries schema = Some entries →
  (∀ fields, schema ≠ JObj fields) → (∀ items, schema ≠ JArr items) →
  toZodSchema entries = ∅.
Proof.
  intros Hentries Hobj Harr. destruct schema as [| | |s|items|fields]; simpl in Hentries;
    try (by injection Hentries as <-); [done| |by destruct (Harr items)|by destruct (Hobj fields)].
  injection Hentries as <-. apply foldl_convert_none.
  unfold char_entries. apply (index_entries_Forall (λ t, zod_of t = None)).
  apply Forall_fmap, Forall_forall. intros c _. apply zod_of_char.
Qed.

End SchemaConversionMore.

Lemma toZodSchema_keeps_known_witness :
  toZodSchema odd_schema !! "price" = Some z_number.
Proof.
  apply (toZodSchema_keeps_known odd_schema "price" z_number).
  - apply (bool_decide_unpack _). reflexivity.
  - intros type Hin.
    apply elem_of_cons in Hin as [[= ->]|Hin].
    + intros H. repeat (apply elem_of_cons in H as [H|H]; [discriminate H|]).
      by apply elem_of_nil in H.
    + apply elem_of_cons in Hin as [Hin|Hin]; [discriminate Hin|].
      by apply elem_of_nil in Hin.
  - apply list_elem_of_further, list_elem_of_here.
Defined.

Lemma toZodSchema_primitive_witness :
  toZodSchema (char_entries "string") = ∅.
Proof.
  apply (toZodSchema_primitive (JStr "string") (char_entries "string")).
  - reflexivity.
  - discriminate.
  - discriminate.
Defined.

Section CloseBrowserState.
Variable env : Env.

Lemma closeOwnInstance_globals (w : World Cli.Globals) :
  globals (Cli.closeOwnInstance env w).2
  = match Cli.stagehandInstance (globals w) with
    | Some _ => Cli.set_currentPage None (Cli.set_stagehandInstance None (globals w))
    | None => globals w
    end.
Proof.
  unfold Cli.closeOwnInstance, console_error. run.
  destruct (Cli.stagehandInstance (globals w)); [|done].
  by destruct (throws env _).
Qed.

Lemma killOwnChild_globals (w : World Cli.Globals) :
  globals (Cli.killOwnChild env w).2
  = match Cli.chromeProcess (globals w) with
    | Some _ =>
        if Cli.weStartedChrome (globals w)
        then Cli.set_weStartedChrome false (Cli.set_chromeProcess None (globals w))
        else globals w
    | None => globals w
    end.
Proof.
  unfold Cli.killOwnChild, console_error, sleep. run.
  destruct (Cli.chromeProcess (globals w)); [|done].
  destruct (Cli.weStartedChrome (globals w)); [|done].
  destruct (throws env _); simpl; [done|].
  destruct (exit_code_null env _); simpl; [|done].
  by destruct (throws env _).
Qed.

Lemma shutdown_keeps_globals g :
  preserves (λ w : World Cli.Globals, globals w = g)
    (try_finally (try_catch (Cli.gracefulThenForce env) (λ _, mret ()))
       (Cli.cleanupPidFile env)).
Proof. autounfold with prog. repeat preserves_step; by intros []. Qed.

Lemma closeBrowser_closed (w : World Cli.Globals) :
  globals (Cli.closeBrowser env w).2 = closed (globals w).
Proof.
  unfold Cli.closeBrowser.
  pose proof (closeOwnInstance_never_throws env w I) as Hnt1.
  pose proof (closeOwnInstance_globals w) as Hg1.
  unfold mbind at 1, M_bind at 1.
  destruct (Cli.closeOwnInstance env w) as [[[]|e] w1]; simpl in Hnt1, Hg1; [|done].
  pose proof (killOwnChild_never_throws env w1 I) as Hnt2.
  pose proof (killOwnChild_globals w1) as Hg2.
  unfold mbind at 1, M_bind at 1.
  destruct (Cli.killOwnChild env w1) as [[[]|e] w2]; simpl in Hnt2, Hg2; [|done].
  rewrite (shutdown_keeps_globals (globals w2) w2 eq_refl).
  rewrite Hg2, Hg1. unfold closed. by destruct (Cli.stagehandInstance (globals w)).
Qed.

(** X8. What [closeBrowser] leaves in the module's variables depends on
    what they held before only, not on what failed on the way: the handle
    and the page are dropped, and the child and the flag are dropped when
    this process started the child. *)
Theorem closeBrowser_globals (w : World Cli.Globals) :
  globals (Cli.closeBrowser env w).2 = closed (globals w).
Proof. apply closeBrowser_closed. Qed.

Lemma closeBrowser_drops_handle (w : World Cli.Globals) :
  Cli.stagehandInstance (globals (Cli.closeBrowser env w).2) = None.
Proof.
  rewrite closeBrowser_closed. unfold closed.
  destruct (Cli.stagehandInstance (globals w)) eqn:Hsh; simpl;
    destruct (Cli.chromeProcess (globals w)); simpl; try done;
    destruct (Cli.weStartedChrome (globals w)); simpl; done.
Qed.

Lemma hoare_inv_bind {G A B} (P Inv : World G → Prop) (m : M G A) (f : A → M G B) :
  hoare P m (λ _, Inv) → (∀ a, preserves Inv (f a)) → hoare P (m ≫= f) (λ _, Inv).
Proof.
  intros Hm Hf. apply hoare_bind with (R := λ _, Inv); [|done].
  intros w' Hw'. specialize (Hm w' Hw'). by destruct (m w').1.
Qed.

Lemma hoare_inv_try_catch {G A} (P Inv : World G → Prop) (body : M G A) handler :
  hoare P body (λ _, Inv) → (∀ e, preserves Inv (handler e)) →
  hoare P (try_catch body handler) (λ _, Inv).
Proof.
  intros Hm Hh. apply hoare_try_catch with (R := λ _, Inv); [|done].
  intros w' Hw'. specialize (Hm w' Hw'). by destruct (body w').1.
Qed.

Lemma initBrowser_probes_first (w : World Cli.Globals) path :
  Cli.stagehandInstance (globals w) = None →
  findLocalChrome env = Some path →
  extends (trace w ++ [EvFetch version_url None]) cli_init_event (Cli.initBrowser env w).2.
Proof.
  intros Hnone Hfound.
  unfold Cli.initBrowser. erewrite run_bind; [|reflexivity]. rewrite Hnone.
  rewrite (findLocalChrome_truthy _ _ Hfound). cbn [negb].
  match goal with
  | |- ?Inv (?m w).2 => assert (hoare (λ w', w' = w) m (λ _, Inv)) as H; [|by apply H]
  end.
  apply hoare_inv_bind.
  - apply hoare_inv_try_catch; [|intros e; apply preserves_ret].
    apply hoare_inv_bind.
    + unfold fetch_ok. apply hoare_inv_bind.
      * apply hoare_emit. intros w' ->.
        destruct (throws env _); apply (extends_refl _ (record_event _ w)).
      * intros _. repeat preserves_step.
    + intros ok. unfold console_error. repeat preserves_step; keep_inv.
  - intros ready. unfold Cli.connectStagehand. autounfold with prog.
    repeat first [ apply cli_waitForChrome_preserves
                 | apply cli_waitForPage_preserves
                 | preserves_step ];
      keep_inv.
Qed.

(** X9. After [closeBrowser] no control handle is held, so a later
    [initBrowser] of the same process does not return the closed session:
    where a Chrome is installed it starts over with a probe of the control
    endpoint. *)
Theorem closeBrowser_then_initBrowser (w : World Cli.Globals) path :
  findLocalChrome env = Some path →
  extends (trace (Cli.closeBrowser env w).2 ++ [EvFetch version_url None]) cli_init_event
    (Cli.initBrowser env (Cli.closeBrowser env w).2).2.
Proof.
  intros Hfound. eapply initBrowser_probes_first; [|done]. apply closeBrowser_drops_handle.
Qed.

End CloseBrowserState.

Lemma closeBrowser_then_initBrowser_witness :
  extends (trace (Cli.closeBrowser quiet_env connected).2 ++ [EvFetch version_url None])
    cli_init_event
    (Cli.initBrowser quiet_env (Cli.closeBrowser quiet_env connected).2).2.
Proof.
  apply (closeBrowser_then_initBrowser quiet_env connected "/usr/bin/google-chrome").
  reflexivity.
Defined.

Section CloseBrowserPaths.
Variable env : Env.

Lemma gracefulThenForce_unreachable (w : World Cli.Globals) :
  never_ready env →
  (try_catch (Cli.gracefulThenForce env) (λ _, mret ()) w).2
  = record_event (EvFetch version_url (Some 2000)) w.
Proof.
  intros Hnever. unfold Cli.gracefulThenForce, fetch_ok. run.
  destruct (Hnever (trace w) version_url (Some 2000)) as [-> | Hok]; [done|].
  destruct (throws env _); [done|]. simpl. by rewrite Hok.
Qed.

Lemma closeBrowser_unreachable_events base :
  never_ready env →
  preserves (extends base ledger_unused) (Cli.closeBrowser env).
Proof.
  intros Hnever. unfold Cli.closeBrowser.
  apply preserves_bind; [autounfold with prog; repeat preserves_step; keep_inv|intros _].
  apply preserves_bind; [autounfold with prog; repeat preserves_step; keep_inv|intros _].
  apply preserves_try_finally.
  - intros w Hw. rewrite gracefulThenForce_unreachable by done. by apply extends_record.
  - autounfold with prog. repeat preserves_step; keep_inv.
Qed.

(** X10. When nothing answers on the control port, [closeBrowser] opens no
    throwaway connection, never reads the ledger and kills no process by
    id; it deletes the ledger all the same (where the deletion does not
    fail), so the process the ledger named is forgotten. *)
Theorem closeBrowser_unreachable (w : World Cli.Globals) :
  never_ready env →
  extends (trace w) ledger_unused (Cli.closeBrowser env w).2 ∧
  (deletable env w → pidFile (Cli.closeBrowser env w).2 = None).
Proof.
  intros Hnever. split.
  - by apply closeBrowser_unreachable_events, extends_refl.
  - apply closeBrowser_removes_ledger.
Qed.

Lemma killOwnChild_skipped (w : World Cli.Globals) :
  Cli.chromeProcess (globals w) = None ∨ Cli.weStartedChrome (globals w) = false →
  Cli.killOwnChild env w = (Ok (), w).
Proof.
  unfold Cli.killOwnChild. run. intros [-> | Hflag]; [done|].
  rewrite Hflag. by destruct (Cli.chromeProcess (globals w)).
Qed.

Lemma closeBrowser_no_child_kill (w : World Cli.Globals) :
  Cli.chromeProcess (globals w) = None ∨ Cli.weStartedChrome (globals w) = false →
  extends (trace w) no_child_kill (Cli.closeBrowser env w).2.
Proof.
  intros Hforeign.
  unfold Cli.closeBrowser.
  match goal with
  | |- ?Inv (?m w).2 =>
      assert (hoare (λ w', w' = w) m (λ _, Inv)) as H; [|by apply H]
  end.
  apply hoare_bind with
    (R := λ _ w', extends (trace w) no_child_kill w' ∧
                  (Cli.chromeProcess (globals w') = None ∨
                   Cli.weStartedChrome (globals w') = false)).
  { intros w' ->. pose proof (closeOwnInstance_never_throws env w I) as Hnt.
    pose proof (closeOwnInstance_globals env w) as Hg.
    assert (preserves (extends (trace w) no_child_kill) (Cli.closeOwnInstance env)) as Hp.
    { autounfold with prog. repeat preserves_step; keep_inv. }
    pose proof (Hp w (extends_refl _ w)) as Hext.
    destruct (Cli.closeOwnInstance env w) as [[[]|e] w1]; simpl in *; [|done].
    split; [done|]. rewrite Hg. by destruct (Cli.stagehandInstance (globals w)). }
  intros _. apply hoare_inv_bind.
  { intros w' [Hext Hf]. by rewrite (killOwnChild_skipped w' Hf). }
  intros _. autounfold with prog.
  repeat preserves_step; keep_inv.
Qed.

(** X11. [closeBrowser] signals the handle of its child only when this
    process started the browser: with no child, or with the flag
    [weStartedChrome] unset (a reused browser, or one that never became
    ready), no signal goes to the handle. *)
Theorem closeBrowser_spares_foreign_child (w : World Cli.Globals) :
  Cli.chromeProcess (globals w) = None ∨ Cli.weStartedChrome (globals w) = false →
  extends (trace w) no_child_kill (Cli.closeBrowser env w).2.
Proof. apply closeBrowser_no_child_kill. Qed.

End CloseBrowserPaths.

Lemma closeBrowser_unreachable_witness :
  extends (trace stale_ledger) ledger_unused (Cli.closeBrowser quiet_env stale_ledger).2 ∧
  pidFile (Cli.closeBrowser quiet_env stale_ledger).2 = None.
Proof.
  destruct (closeBrowser_unreachable quiet_env stale_ledger) as [H1 H2].
  - intros h url timeout. right. reflexivity.
  - split; [exact H1|]. apply H2. right. reflexivity.
Defined.

Lemma closeBrowser_spares_foreign_child_witness :
  extends (trace connected) no_child_kill (Cli.closeBrowser stubborn_chrome connected).2.
Proof.
  apply (closeBrowser_spares_foreign_child stubborn_chrome connected). left. reflexivity.
Defined.

Section ChildEscalation.
Variable env : Env.
Variable base : list Event.

Lemma escalated_refl (w : World Cli.Globals) : child_kills_escalated env (trace w) w.
Proof.
  exists []. split; [by rewrite app_nil_r|]. intros pre child post H. by destruct pre.
Qed.

Lemma escalated_record e (w : World Cli.Globals) :
  (∀ child, e ≠ EvChildKill child (Some SIGKILL)) →
  child_kills_escalated env base w → child_kills_escalated env base (record_event e w).
Proof.
  intros He (added & Htr & Hall). exists (added ++ [e]). simpl.
  split; [by rewrite Htr, <- app_assoc|].
  intros pre child post Hsplit.
  apply snoc_decompose in Hsplit as [(_ & _ & Heq)|(post' & _ & Hadded)].
  - by destruct (He child).
  - by apply (Hall pre child post').
Qed.

Lemma escalated_same_trace (w w' : World Cli.Globals) :
  trace w' = trace w → child_kills_escalated env base w → child_kills_escalated env base w'.
Proof. intros Heq (added & Htr & Hall). exists added. by rewrite Heq. Qed.

Lemma escalated_kill child (w : World Cli.Globals) :
  (∃ pre', trace w = (base ++ pre') ++ [EvChildKill child (Some SIGTERM); EvSleep 1000]) →
  exit_code_null env (trace w) = true →
  child_kills_escalated env base w →
  child_kills_escalated env base (record_event (EvChildKill child (Some SIGKILL)) w).
Proof.
  intros (pre' & Hpre) Hnull (added & Htr & Hall).
  exists (added ++ [EvChildKill child (Some SIGKILL)]). simpl.
  split; [by rewrite Htr, <- app_assoc|].
  intros pre child' post Hsplit.
  apply snoc_decompose in Hsplit as [(_ & -> & [= ->])|(post' & _ & Hadded)].
  - rewrite <- Htr. split; [done|]. exists pre'.
    rewrite Htr, <- app_assoc in Hpre. by apply app_inv_head in Hpre.
  - by apply (Hall pre child' post').
Qed.

End ChildEscalation.

Ltac keep_escalated :=
  let w := fresh "w" in
  let H := fresh "H" in
  intros w H;
  first [ by apply escalated_record
        | by eapply escalated_same_trace; [|exact H] ].

Section ChildEscalationClaim.
Variable env : Env.

Lemma killOwnChild_escalates base :
  preserves (child_kills_escalated env base) (Cli.killOwnChild env).
Proof.
  unfold Cli.killOwnChild.
  apply preserves_bind; [apply preserves_get|]. intros g.
  destruct (Cli.chromeProcess g) as [child|]; [|apply preserves_ret].
  destruct (Cli.weStartedChrome g); [|apply preserves_ret].
  apply preserves_bind; [|intros _; repeat preserves_step; keep_escalated].
  apply preserves_try_catch; [|intros e; unfold console_error; repeat preserves_step;
                                keep_escalated].
  apply hoare_bind with
    (R := λ _ w, child_kills_escalated env base w ∧
                 ∃ pre', trace w = (base ++ pre') ++ [EvChildKill child (Some SIGTERM)]).
  { apply hoare_emit. intros w Hw.
    assert (child_kills_escalated env base
              (record_event (EvChildKill child (Some SIGTERM)) w)) as Hrec
      by (by apply escalated_record).
    destruct (throws env _); [done|]. split; [done|].
    destruct Hw as (added & Htr & _). exists added. simpl. by rewrite Htr. }
  intros _.
  apply hoare_bind with
    (R := λ _ w, child_kills_escalated env base w ∧
                 ∃ pre', trace w = (base ++ pre')
                                   ++ [EvChildKill child (Some SIGTERM); EvSleep 1000]).
  { unfold sleep. apply hoare_emit_quiet. intros w [Hw (pre' & Hpre)].
    split; [by apply escalated_record|]. exists pre'. simpl.
    by rewrite Hpre, <- app_assoc. }
  intros _.
  apply hoare_bind with
    (R := λ h w, h = trace w ∧ child_kills_escalated env base w ∧
                 ∃ pre', trace w = (base ++ pre')
                                   ++ [EvChildKill child (Some SIGTERM); EvSleep 1000]).
  { apply hoare_history. by intros w []. }
  intros h. destruct (exit_code_null env h) eqn:Hnull.
  - apply hoare_emit. intros w (-> & Hw & Hpre).
    assert (child_kills_escalated env base
              (record_event (EvChildKill child (Some SIGKILL)) w)) as Hrec
      by (by apply escalated_kill).
    by destruct (throws env _).
  - apply hoare_ret. by intros w (_ & ? & _).
Qed.

(** X12. [closeBrowser] escalates on its own child: a SIGKILL goes to the
    handle of the child only right after a SIGTERM to it and a pause of one
    second, and only when the child has still not exited then. *)
Theorem closeBrowser_escalates (w : World Cli.Globals) pre child post :
  trace (Cli.closeBrowser env w).2
  = trace w ++ pre ++ EvChildKill child (Some SIGKILL) :: post →
  exit_code_null env (trace w ++ pre) = true ∧
  ∃ pre', pre = pre' ++ [EvChildKill child (Some SIGTERM); EvSleep 1000].
Proof.
  assert (preserves (child_kills_escalated env (trace w)) (Cli.closeBrowser env)) as Hp.
  { unfold Cli.closeBrowser.
    apply preserves_bind; [autounfold with prog; repeat preserves_step; keep_escalated|].
    intros _. apply preserves_bind; [apply killOwnChild_escalates|]. intros _.
    autounfold with prog. repeat preserves_step; keep_escalated. }
  destruct (Hp w (escalated_refl env w)) as (added & Htr & Hall).
  intros Hsplit. rewrite Htr in Hsplit. apply app_inv_head in Hsplit.
  by apply (Hall pre child post).
Qed.

End ChildEscalationClaim.

Lemma closeBrowser_escalates_witness :
  exit_code_null quiet_env
    (trace launched ++ take 3 (trace (Cli.closeBrowser quiet_env launched).2)) = true ∧
  ∃ pre',
    take 3 (trace (Cli.closeBrowser quiet_env launched).2)
    = pre' ++ [EvChildKill own_child (Some SIGTERM); EvSleep 1000].
Proof.
  apply (closeBrowser_escalates quiet_env launched
           (take 3 (trace (Cli.closeBrowser quiet_env launched).2)) own_child
           (drop 4 (trace (Cli.closeBrowser quiet_env launched).2))).
  reflexivity.
Defined.

Section PageWait.
Variable env : Env.

Lemma page_rounds_S n p : page_rounds (S n) p = page_round p ++ page_rounds n p.
Proof. reflexivity. Qed.

Lemma cli_waitForPage_spec fuel retries p (w : World Cli.Globals) :
  ∃ k, (k ≤ fuel)%nat ∧
       Cli.waitForPage env fuel retries p w
       = (Ok (retries + k)%nat,
          {| globals := globals w; pidFile := pidFile w;
             trace := trace w ++ page_wait k fuel p |}).
Proof.
  revert retries w. induction fuel as [|fuel IH]; intros retries w.
  - exists 0%nat. split; [done|]. simpl. unfold page_wait. simpl.
    rewrite app_nil_r, Nat.add_0_r. by destruct w.
  - cbn [Cli.waitForPage]. unfold sleep. run.
    destruct (throws env _) eqn:Hth; simpl.
    + destruct (IH (S retries)
                  {| globals := globals w; pidFile := pidFile w;
                     trace := (trace w ++ [EvPageEvaluate p]) ++ [EvSleep 100] |})
        as (k & Hk & Hrun).
      exists (S k). split; [lia|]. rewrite Hrun. simpl. f_equal; [f_equal; lia|].
      f_equal. unfold page_wait. rewrite page_rounds_S. unfold page_round.
      change (S k <? S fuel)%nat with (k <? fuel)%nat.
      by rewrite <- !app_assoc.
    + exists 0%nat. split; [lia|]. rewrite Nat.add_0_r. done.
Qed.

Lemma tools_waitForPage_spec fuel retries p (w : World Tools.Globals) :
  ∃ k, (k ≤ fuel)%nat ∧
       Tools.waitForPage env fuel retries p w
       = (Ok (retries + k)%nat,
          {| globals := globals w; pidFile := pidFile w;
             trace := trace w ++ page_wait k fuel p |}).
Proof.
  revert retries w. induction fuel as [|fuel IH]; intros retries w.
  - exists 0%nat. split; [done|]. simpl. unfold page_wait. simpl.
    rewrite app_nil_r, Nat.add_0_r. by destruct w.
  - cbn [Tools.waitForPage]. unfold sleep. run.
    destruct (throws env _) eqn:Hth; simpl.
    + destruct (IH (S retries)
                  {| globals := globals w; pidFile := pidFile w;
                     trace := (trace w ++ [EvPageEvaluate p]) ++ [EvSleep 100] |})
        as (k & Hk & Hrun).
      exists (S k). split; [lia|]. rewrite Hrun. simpl. f_equal; [f_equal; lia|].
      f_equal. unfold page_wait. rewrite page_rounds_S. unfold page_round.
      change (S k <? S fuel)%nat with (k <? fuel)%nat.
      by rewrite <- !app_assoc.
    + exists 0%nat. split; [lia|]. rewrite Nat.add_0_r. done.
Qed.

(** X13. The wait for the page, in [initBrowser] and in [getStagehand],
    never throws and is bounded: it makes some number [k] of failed rounds,
    at most 30, each an evaluation followed by a pause of 100 ms, then one
    successful evaluation unless the 30 rounds ran out; it returns [k] and
    touches nothing else. *)
Theorem waitForPage_bounded p :
  (∀ w : World Cli.Globals,
     ∃ k, (k ≤ 30)%nat ∧
          Cli.waitForPage env 30 0 p w
          = (Ok k, {| globals := globals w; pidFile := pidFile w;
                      trace := trace w ++ page_wait k 30 p |})) ∧
  (∀ w : World Tools.Globals,
     ∃ k, (k ≤ 30)%nat ∧
          Tools.waitForPage env 30 0 p w
          = (Ok k, {| globals := globals w; pidFile := pidFile w;
                      trace := trace w ++ page_wait k 30 p |})).
Proof.
  split; intros w.
  - destruct (cli_waitForPage_spec 30 0 p w) as (k & Hk & Hrun). by exists k.
  - destruct (tools_waitForPage_spec 30 0 p w) as (k & Hk & Hrun). by exists k.
Qed.

End PageWait.

Section PageNeverReady.
Variable env : Env.
Hypothesis Hpage : page_never_ready env.

Lemma cli_waitForPage_exhausts fuel retries p (w : World Cli.Globals) :
  Cli.waitForPage env fuel retries p w
  = (Ok (retries + fuel)%nat,
     {| globals := globals w; pidFile := pidFile w;
        trace := trace w ++ page_rounds fuel p |}).
Proof.
  revert retries w. induction fuel as [|fuel IH]; intros retries w.
  - simpl. unfold page_rounds. simpl. rewrite app_nil_r, Nat.add_0_r. by destruct w.
  - cbn [Cli.waitForPage]. unfold sleep. run. rewrite Hpage. simpl.
    rewrite IH. simpl. rewrite page_rounds_S. unfold page_round.
    rewrite <- !app_assoc. simpl. do 2 f_equal. lia.
Qed.

Lemma tools_waitForPage_exhausts fuel retries p (w : World Tools.Globals) :
  Tools.waitForPage env fuel retries p w
  = (Ok (retries + fuel)%nat,
     {| globals := globals w; pidFile := pidFile w;
        trace := trace w ++ page_rounds fuel p |}).
Proof.
  revert retries w. induction fuel as [|fuel IH]; intros retries w.
  - simpl. unfold page_rounds. simpl. rewrite app_nil_r, Nat.add_0_r. by destruct w.
  - cbn [Tools.waitForPage]. unfold sleep. run. rewrite Hpage. simpl.
    rewrite IH. simpl. rewrite page_rounds_S. unfold page_round.
    rewrite <- !app_assoc. simpl. do 2 f_equal. lia.
Qed.

Lemma launchAndConnect_page_timeout :
  hoare (λ _, True) (Tools.launchAndConnect env) (λ r _, ¬ is_Ok r).
Proof.
  unfold Tools.launchAndConnect.
  destruct (negb _); [apply hoare_throw; by intros ? _ []|].
  do 7 (apply hoare_bind with (R := λ _ _, True);
        [intros w _; destruct (_ w).1; [done|by intros []]|]; intros ?).
  destruct (negb _); [apply hoare_throw; by intros ? _ []|].
  do 4 (apply hoare_bind with (R := λ _ _, True);
        [intros w _; destruct (_ w).1; [done|by intros []]|]; intros ?).
  apply hoare_bind with (R := λ retries _, retries = 30%nat).
  { intros w _. by rewrite tools_waitForPage_exhausts. }
  intros retries. apply hoare_conseq with (P' := λ _, retries = 30%nat)
                                          (Q' := λ r _, ¬ is_Ok r); [|done..].
  intros w ->. simpl. by intros [].
Qed.

(** X14. In stagehand-tools.ts a page that never becomes ready is an
    error: when every evaluation on the page fails, [getStagehand] does not
    return a session. *)
Theorem getStagehand_page_timeout (w : World Tools.Globals) :
  Tools.stagehandInstance (globals w) = None →
  ∃ e, (Tools.getStagehand env w).1 = Throw e.
Proof.
  intros Hnone.
  assert (¬ is_Ok (Tools.getStagehand env w).1) as H.
  { unfold Tools.getStagehand. erewrite run_bind; [|reflexivity]. rewrite Hnone.
    pose proof (launchAndConnect_page_timeout w I) as Hl.
    unfold mbind at 1, M_bind at 1.
    by destruct (Tools.launchAndConnect env w) as [[[]|e] w1]. }
  destruct (Tools.getStagehand env w).1 as [s|e]; [by destruct H|by exists e].
Qed.

End PageNeverReady.

Section SilentPageTimeout.
Variable env : Env.
Hypothesis Hpage : page_never_ready env.
Hypothesis Honly : only_evaluate_fails env.
Hypothesis Hready : ∀ h, response_ok env h = true.

Lemma other_calls_succeed h e :
  (∀ p, e ≠ EvPageEvaluate p) → throws env (h ++ [e]) = false.
Proof.
  intros He. destruct (throws env (h ++ [e])) eqn:Hth; [|done].
  destruct (Honly h e Hth) as [p ->]. by destruct (He p).
Qed.

(** X15. In cli.ts a page that never becomes ready is no error: when a
    Chrome answers on the control port and nothing fails but the
    evaluations on the page, [initBrowser] makes its 30 attempts and then
    returns the session all the same. *)
Theorem initBrowser_ignores_page_timeout (w : World Cli.Globals) path :
  Cli.stagehandInstance (globals w) = None →
  findLocalChrome env = Some path →
  ∃ sh, (Cli.initBrowser env w).1
        = Ok {| stagehand := Some sh; page := Some (PageOf sh) |} ∧
        page_rounds 30 (PageOf sh) `sublist_of` trace (Cli.initBrowser env w).2.
Proof.
  intros Hnone Hfound.
  unfold Cli.initBrowser. erewrite run_bind; [|reflexivity]. rewrite Hnone.
  rewrite (findLocalChrome_truthy _ _ Hfound). cbn [negb].
  erewrite run_bind; cycle 1.
  { unfold fetch_ok, console_error. run.
    rewrite other_calls_succeed by done. simpl. rewrite Hready. reflexivity. }
  erewrite run_bind; [|reflexivity].
  unfold Cli.connectStagehand.
  erewrite run_bind; cycle 1.
  { unfold new_Stagehand. run. rewrite other_calls_succeed by done. reflexivity. }
  erewrite run_bind; [|reflexivity].
  erewrite run_bind; cycle 1.
  { unfold emit. simpl. rewrite other_calls_succeed by done. reflexivity. }
  erewrite run_bind; [|reflexivity].
  erewrite run_bind; [|apply cli_waitForPage_exhausts, Hpage].
  unfold Cli.configureDownloads.
  destruct (path_exists env _);
    (erewrite run_bind; cycle 1;
     [ run; repeat (rewrite other_calls_succeed by done; simpl); reflexivity |]);
    (eexists; split; [reflexivity|]); simpl;
    first [ by do 4 apply sublist_inserts_r; apply sublist_inserts_l
          | by do 3 apply sublist_inserts_r; apply sublist_inserts_l ].
Qed.

End SilentPageTimeout.

Section CloseStagehand.
Variable env : Env.

(** X16. [closeStagehand] gives up at a failing close of the control
    handle: the child is not signalled and the module's variables stay as
    they are, so the [close_browser] tool reports the failure and a later
    [getStagehand] still returns the session that could not be closed. *)
Theorem closeStagehand_failed_close (w : World Tools.Globals) sh :
  Tools.stagehandInstance (globals w) = Some sh →
  throws env (trace w ++ [EvStagehandClose sh]) = true →
  Tools.close_browser env w
  = (Ok (failure (Rejected (EvStagehandClose sh))), record_event (EvStagehandClose sh) w) ∧
  Tools.getStagehand env (Tools.close_browser env w).2
  = (Ok {| stagehand := Some sh; page := Tools.currentPage (globals w) |},
     record_event (EvStagehandClose sh) w).
Proof.
  intros Hsh Hth.
  assert (Tools.close_browser env w
          = (Ok (failure (Rejected (EvStagehandClose sh))),
             record_event (EvStagehandClose sh) w)) as Hrun.
  { unfold Tools.close_browser, Tools.closeStagehand. run. rewrite Hsh. simpl.
    by rewrite Hth. }
  split; [done|]. rewrite Hrun. simpl.
  unfold Tools.getStagehand. run. rewrite Hsh. simpl. by rewrite Hsh.
Qed.

(** X17. When neither the close nor the signal fails, [closeStagehand]
    returns with the handle, the child and the profile path dropped from
    the module's variables (and the page with the handle), and it has
    signalled the child whenever one was held. *)
Theorem closeStagehand_resets (w : World Tools.Globals) :
  (∀ h e, throws env (h ++ [e]) = false) →
  (Tools.closeStagehand env w).1 = Ok () ∧
  Tools.stagehandInstance (globals (Tools.closeStagehand env w).2) = None ∧
  Tools.chromeProcess (globals (Tools.closeStagehand env w).2) = None ∧
  Tools.tempUserDataDir (globals (Tools.closeStagehand env w).2) = None ∧
  (is_Some (Tools.stagehandInstance (globals w)) →
   Tools.currentPage (globals (Tools.closeStagehand env w).2) = None) ∧
  ∀ child, Tools.chromeProcess (globals w) = Some child →
           EvChildKill child None ∈ trace (Tools.closeStagehand env w).2.
Proof.
  intros Hth. unfold Tools.closeStagehand. run.
  destruct (Tools.stagehandInstance (globals w)) as [sh|] eqn:Hsh;
    destruct (Tools.chromeProcess (globals w)) as [child|] eqn:Hchild; simpl;
    repeat (rewrite Hth; simpl); rewrite ?Hchild; simpl;
    repeat (rewrite Hth; simpl);
    repeat split; try done;
    try (by intros []); intros child' [= <-]; set_solver.
Qed.

End CloseStagehand.

Lemma closeStagehand_failed_close_witness :
  Tools.close_browser (with_throws close_fails quiet_env) serving
  = (Ok (failure (Rejected (EvStagehandClose connected_stagehand))),
     record_event (EvStagehandClose connected_stagehand) serving).
Proof.
  apply (closeStagehand_failed_close (with_throws close_fails quiet_env) serving
           connected_stagehand); reflexivity.
Defined.

Lemma closeStagehand_resets_witness :
  (Tools.closeStagehand quiet_env serving).1 = Ok () ∧
  Tools.stagehandInstance (globals (Tools.closeStagehand quiet_env serving).2) = None.
Proof.
  destruct (closeStagehand_resets quiet_env serving) as (H1 & H2 & _); [reflexivity|].
  split; [exact H1|exact H2].
Defined.

Section StaleHandle.
Variable env : Env.
Variable page0 : option Page.

Lemma kept_bind {A B} (Inv : World Tools.Globals → Prop) (m : M Tools.Globals A)
    (f : A → M Tools.Globals B) :
  hoare Inv m (kept_or_thrown Inv) →
  (∀ a, hoare Inv (f a) (kept_or_thrown Inv)) →
  hoare Inv (m ≫= f) (kept_or_thrown Inv).
Proof.
  intros Hm Hf. apply hoare_bind with (R := λ _, Inv); [|done].
  intros w Hw. specialize (Hm w Hw). by destruct (m w).1.
Qed.

Lemma stale_bind {A B} (Inv : World Tools.Globals → Prop) (m : M Tools.Globals A)
    (f : A → M Tools.Globals B) :
  hoare Inv m (kept_or_thrown Inv) →
  (∀ a, hoare Inv (f a) (stale_after_init page0)) →
  hoare Inv (m ≫= f) (stale_after_init page0).
Proof.
  intros Hm Hf. apply hoare_bind with (R := λ _, Inv); [|done].
  intros w Hw. specialize (Hm w Hw). destruct (m w).1 as [a|e]; [done|].
  intros sh Hsh. unfold kept_or_thrown, init_rejected in *. congruence.
Qed.

Lemma kept_emit (Inv : World Tools.Globals → Prop) e :
  (∀ w, Inv w → Inv (record_event e w)) →
  (∀ sh, e ≠ EvStagehandInit sh) →
  hoare Inv (emit env e) (kept_or_thrown Inv).
Proof.
  intros Hrec He. apply hoare_emit. intros w Hw.
  destruct (throws env _); [|by apply Hrec].
  destruct e; try done. by destruct (He sh).
Qed.

Lemma kept_quiet {A} (Inv : World Tools.Globals → Prop) (m : M Tools.Globals A) :
  never_throws m → preserves Inv m → hoare Inv m (kept_or_thrown Inv).
Proof.
  intros Hnt Hp w Hw. specialize (Hnt w I). specialize (Hp w Hw).
  by destruct (m w).1.
Qed.

Lemma tools_waitForChrome_never_throws n : never_throws (Tools.waitForChrome env n).
Proof.
  induction n as [|n IH]; simpl; unfold sleep; repeat never_throws_step; done.
Qed.

Lemma tools_waitForPage_never_throws fuel retries p :
  never_throws (Tools.waitForPage env fuel retries p).
Proof.
  intros w _. destruct (tools_waitForPage_spec env fuel retries p w) as (k & _ & ->). done.
Qed.

Lemma never_throws_history {G} : never_throws (G:=G) history.
Proof. by apply hoare_history. Qed.

Lemma configureDownloads_kept p :
  hoare (λ _, True) (Tools.configureDownloads env p) (kept_or_thrown (λ _, True)).
Proof.
  unfold Tools.configureDownloads.
  repeat (apply kept_bind; [|intros _]); try (by apply kept_emit).
  destruct (path_exists env _); [by apply hoare_ret|by apply kept_emit].
Qed.

Lemma launchAndConnect_stale :
  hoare (page_kept page0) (Tools.launchAndConnect env) (stale_after_init page0).
Proof.
  unfold Tools.launchAndConnect.
  destruct (negb _); [apply hoare_throw; by intros w _ sh|].
  apply stale_bind; [apply kept_quiet; [apply never_throws_modify|];
                     by apply preserves_modify|intros _].
  apply stale_bind.
  { unfold spawn. apply kept_bind; [by apply kept_emit|intros _].
    apply kept_quiet; [|repeat preserves_step].
    apply never_throws_bind; [apply never_throws_history|intros h].
    apply never_throws_ret. }
  intros child.
  apply stale_bind; [apply kept_quiet; [apply never_throws_modify|];
                     by apply preserves_modify|intros _].
  do 3 (apply stale_bind; [apply kept_quiet; [apply never_throws_emit_quiet|];
                           by apply preserves_emit_quiet|intros _]).
  apply stale_bind.
  { apply kept_quiet; [apply tools_waitForChrome_never_throws|].
    by apply tools_waitForChrome_preserves. }
  intros ready. destruct (negb ready); [apply hoare_throw; by intros w _ sh|].
  apply stale_bind.
  { unfold new_Stagehand.
    apply kept_bind; [apply kept_quiet; [apply never_throws_history|
                                         apply preserves_history]|intros h].
    apply kept_bind; [by apply kept_emit|intros _]. by apply hoare_ret. }
  intros sh.
  apply hoare_bind with
    (R := λ _ w, Tools.stagehandInstance (globals w) = Some sh ∧ page_kept page0 w).
  { by apply hoare_modify. }
  intros _.
  apply hoare_bind with (R := λ _ _, True).
  { apply hoare_emit. intros w [Hsh Hpage]. destruct (throws env _); [|done].
    intros sh' [= <-]. done. }
  intros _.
  apply hoare_conseq with (P' := λ _, True) (Q' := kept_or_thrown (λ _, True)); [|done|].
  2: { intros [a|e] w Hr sh' Hsh'; [done|].
       unfold kept_or_thrown, init_rejected in *. congruence. }
  apply kept_bind; [apply kept_quiet; [apply never_throws_modify|];
                    by apply preserves_modify|intros _].
  apply kept_bind; [apply kept_quiet; [apply tools_waitForPage_never_throws|];
                    by intros ??|intros retries].
  destruct (30 <=? retries)%nat; [by apply hoare_throw|].
  apply configureDownloads_kept.
Qed.

(** X18. In [getStagehand] the control handle is stored before it is
    initialized. When the initialization is rejected, the call fails but
    the handle stays in the module's variable, so the next call takes it
    for a session: it returns that handle, with the page as it was before
    (none at the start), and does nothing else. *)
Theorem getStagehand_stale_handle (w : World Tools.Globals) sh :
  Tools.stagehandInstance (globals w) = None →
  Tools.currentPage (globals w) = page0 →
  (Tools.getStagehand env w).1 = Throw (Rejected (EvStagehandInit sh)) →
  Tools.getStagehand env (Tools.getStagehand env w).2
  = (Ok {| stagehand := Some sh; page := page0 |}, (Tools.getStagehand env w).2).
Proof.
  intros Hnone Hpage Hfail.
  assert (Tools.stagehandInstance (globals (Tools.getStagehand env w).2) = Some sh ∧
          Tools.currentPage (globals (Tools.getStagehand env w).2) = page0) as [Hsh Hp].
  { revert Hfail. unfold Tools.getStagehand.
    erewrite run_bind; [|reflexivity]. rewrite Hnone.
    pose proof (launchAndConnect_stale w Hpage) as Hstale.
    unfold mbind at 1 3 5, M_bind at 1 3 5.
    destruct (Tools.launchAndConnect env w) as [[[]|e] w1]; simpl in *; [done|].
    intros [= ->]. by apply Hstale. }
  revert Hsh Hp. generalize (Tools.getStagehand env w).2. intros w' Hsh Hp.
  unfold Tools.getStagehand. run. rewrite Hsh. simpl. by rewrite Hsh, Hp.
Qed.

End StaleHandle.

Lemma getStagehand_stale_handle_witness :
  ∃ sh,
    (Tools.getStagehand broken_init fresh_tools).1 = Throw (Rejected (EvStagehandInit sh)) ∧
    Tools.getStagehand broken_init (Tools.getStagehand broken_init fresh_tools).2
    = (Ok {| stagehand := Some sh; page := None |},
       (Tools.getStagehand broken_init fresh_tools).2).
Proof.
  eexists. split; [reflexivity|].
  apply (getStagehand_stale_handle broken_init None fresh_tools); reflexivity.
Defined.

Section Orphan.
Variable env : Env.
Hypothesis Hnever : never_ready env.
Hypothesis Hlaunch : launch_unhindered env.

Lemma initBrowser_timeout_globals (w : World Cli.Globals) path :
  Cli.stagehandInstance (globals w) = None →
  findLocalChrome env = Some path →
  ∃ child, globals (Cli.initBrowser env w).2 = Cli.set_chromeProcess (Some child) (globals w).
Proof.
  intros Hnone Hfound.
  unfold Cli.initBrowser.
  erewrite run_bind; [|reflexivity]. rewrite Hnone.
  rewrite (findLocalChrome_truthy _ _ Hfound). cbn [negb].
  erewrite run_bind; [|apply (probe_not_ready env Hnever None w true)].
  cbn iota. unfold Cli.launchChrome.
  rewrite bind_assoc. erewrite run_bind; [|by apply spawn_unhindered].
  rewrite bind_assoc. erewrite run_bind; [|reflexivity].
  rewrite bind_assoc.
  unfold Cli.storePid. cbn [child_pid].
  destruct (spawned_pid env _) as [pid|] eqn:Hpid; [destruct (pid =? 0)%Z eqn:Hz|].
  - erewrite run_bind; [|reflexivity].
    rewrite bind_assoc. erewrite run_bind; [|by apply waitForChrome_exhausts].
    eexists. reflexivity.
  - erewrite run_bind;
      [|erewrite run_bind; [|reflexivity]; by apply write_ledger_unhindered].
    rewrite bind_assoc. erewrite run_bind; [|by apply waitForChrome_exhausts].
    eexists. reflexivity.
  - erewrite run_bind; [|reflexivity].
    rewrite bind_assoc. erewrite run_bind; [|by apply waitForChrome_exhausts].
    eexists. reflexivity.
Qed.

(** X19. A browser that [initBrowser] launched but that never became
    ready is left running by the [closeBrowser] of the same process: the
    child handle is held but the flag [weStartedChrome] was never set, so no
    signal goes to the handle; nothing answers on the port, so the ledger is
    not read and nothing is killed by id; and the ledger is deleted (where
    the deletion does not fail). *)
Theorem timed_out_browser_orphaned (w : World Cli.Globals) path :
  Cli.stagehandInstance (globals w) = None →
  Cli.weStartedChrome (globals w) = false →
  findLocalChrome env = Some path →
  is_Some (Cli.chromeProcess (globals (Cli.initBrowser env w).2)) ∧
  extends (trace (Cli.initBrowser env w).2) no_child_kill (init_then_close env w) ∧
  extends (trace (Cli.initBrowser env w).2) ledger_unused (init_then_close env w) ∧
  (deletable env (Cli.initBrowser env w).2 → pidFile (init_then_close env w) = None).
Proof.
  intros Hnone Hflag Hfound.
  destruct (initBrowser_timeout_globals w path Hnone Hfound) as [child Hg].
  unfold init_then_close. repeat split.
  - rewrite Hg. by eexists.
  - apply closeBrowser_no_child_kill. right. by rewrite Hg.
  - by apply closeBrowser_unreachable_events, extends_refl.
  - apply closeBrowser_removes_ledger.
Qed.

End Orphan.

Lemma timed_out_browser_orphaned_witness :
  is_Some (Cli.chromeProcess (globals (Cli.initBrowser quiet_env (fresh None)).2)) ∧
  pidFile (init_then_close quiet_env (fresh None)) = None.
Proof.
  destruct (timed_out_browser_orphaned quiet_env) with (w := fresh None)
    (path := "/usr/bin/google-chrome") as (H1 & _ & _ & H4).
  - intros h url timeout. right. reflexivity.
  - intros h e _. reflexivity.
  - reflexivity.
  - reflexivity.
  - reflexivity.
  - split; [exact H1|]. apply H4. right. reflexivity.
Defined.

Section AcrossInvocations.
Variable launcher : Env.
Hypothesis Hlaunch : launch_unhindered launcher.

Lemma initBrowser_ledger_written (w : World Cli.Globals) path pid :
  Cli.stagehandInstance (globals w) = None →
  findLocalChrome launcher = Some path →
  throws launcher (trace w ++ [EvFetch version_url None]) = true ∨
  response_ok launcher (trace w ++ [EvFetch version_url None]) = false →
  spawned_pid launcher (trace w ++ [EvFetch version_url None; cli_spawn_event launcher path])
  = Some pid →
  pid ≠ 0 →
  ∃ now, pidFile (Cli.initBrowser launcher w).2 = Some (Document (Cli.ledger_entry pid now)).
Proof.
  intros Hnone Hfound Hprobe Hpid Hnz.
  unfold Cli.initBrowser.
  erewrite run_bind; [|reflexivity]. rewrite Hnone.
  rewrite (findLocalChrome_truthy _ _ Hfound). cbn [negb].
  erewrite run_bind; [|apply (probe_fails launcher None w true Hprobe)].
  cbn iota. rewrite Hfound. change (default "" (Some path)) with path.
  unfold Cli.launchChrome.
  rewrite bind_assoc. erewrite run_bind; [|by apply spawn_unhindered].
  rewrite bind_assoc. erewrite run_bind; [|reflexivity].
  rewrite bind_assoc.
  unfold Cli.storePid. cbn [child_pid trace record_event].
  replace ((trace w ++ [EvFetch version_url None])
           ++ [EvSpawn path (Cli.chromeArgs (join launcher (cwd launcher) ".chrome-profile"))
                 (StdioAll ignore) false])
    with (trace w ++ [EvFetch version_url None; cli_spawn_event launcher path])
    by (by rewrite <- app_assoc).
  rewrite Hpid. apply Z.eqb_neq in Hnz. rewrite Hnz.
  erewrite run_bind;
    [|erewrite run_bind; [|reflexivity]; by apply write_ledger_unhindered].
  eexists.
  eapply (wait_and_connect_no_launch launcher _ _).
  split; [apply extends_refl|reflexivity].
Qed.

(** X20. The ledger carries the process id from one invocation to the
    next. When one invocation launches a browser with process id [pid] and
    writes the ledger, then in any later invocation that finds that ledger
    file, whatever else it meets, every kill by id that [closeBrowser]
    issues is aimed at [pid]. *)
Theorem ledger_carries_pid (w : World Cli.Globals) path pid
    (closer : Env) (later : World Cli.Globals) pre e post target :
  Cli.stagehandInstance (globals w) = None →
  findLocalChrome launcher = Some path →
  throws launcher (trace w ++ [EvFetch version_url None]) = true ∨
  response_ok launcher (trace w ++ [EvFetch version_url None]) = false →
  spawned_pid launcher (trace w ++ [EvFetch version_url None; cli_spawn_event launcher path])
  = Some pid →
  pid ≠ 0 →
  pidFile later = pidFile (Cli.initBrowser launcher w).2 →
  trace (Cli.closeBrowser closer later).2 = trace later ++ pre ++ e :: post →
  forced_kill_of e = Some target →
  target = Some (JNum pid).
Proof.
  intros Hnone Hfound Hprobe Hpid Hnz Hfile Hsplit Hkill.
  destruct (initBrowser_ledger_written w path pid Hnone Hfound Hprobe Hpid Hnz)
    as [now Hwritten].
  destruct (closeBrowser_kills_confirmed closer (trace later) (pidFile later) later)
    as (added & Htr & Hall).
  { split; [apply kills_confirmed_refl|done]. }
  rewrite Htr in Hsplit. apply app_inv_head in Hsplit.
  destruct (Hall pre e post target Hsplit Hkill) as [Hledger _].
  rewrite Hfile, Hwritten in Hledger. simpl in Hledger. congruence.
Qed.

End AcrossInvocations.

Lemma ledger_carries_pid_witness :
  pidFile stale_ledger = pidFile (Cli.initBrowser quiet_env (fresh None)).2 ∧
  trace (Cli.closeBrowser stubborn_chrome stale_ledger).2
  = trace stale_ledger
    ++ take 8 (trace (Cli.closeBrowser stubborn_chrome stale_ledger).2)
    ++ EvProcessKill (Some (JNum 4242)) SIGKILL
       :: drop 9 (trace (Cli.closeBrowser stubborn_chrome stale_ledger).2) ∧
  Some (JNum 4242) = Some (JNum (spawned_pid_of quiet_env)).
Proof.
  split; [reflexivity|]. split; [reflexivity|].
  refine (ledger_carries_pid quiet_env _ (fresh None) "/usr/bin/google-chrome" 4242
            stubborn_chrome stale_ledger
            (take 8 (trace (Cli.closeBrowser stubborn_chrome stale_ledger).2))
            (EvProcessKill (Some (JNum 4242)) SIGKILL)
            (drop 9 (trace (Cli.closeBrowser stubborn_chrome stale_ledger).2))
            (Some (JNum 4242)) _ _ _ _ _ _ _ _).
  - intros h e _. reflexivity.
  - reflexivity.
  - reflexivity.
  - right. reflexivity.
  - reflexivity.
  - discriminate.
  - reflexivity.
  - reflexivity.
  - reflexivity.
Defined.

Section Discovery.
Variable env : Env.

(** X21. With no candidate path of the platform present, [initBrowser] and
    [getStagehand] fail at once with their installation error: no probe, no
    launch, no change, even where a browser already answers on the control
    port. *)
Theorem no_chrome_fails_fast :
  (∀ path, path ∈ chromePaths env → path_exists env path = false) →
  (∀ w : World Cli.Globals,
     Cli.stagehandInstance (globals w) = None →
     Cli.initBrowser env w = (Throw (Error "Could not find Chrome installation"), w)) ∧
  (∀ w : World Tools.Globals,
     Tools.stagehandInstance (globals w) = None →
     Tools.getStagehand env w = (Throw (Error Tools.installHelp), w)).
Proof.
  intros Hnone. apply findLocalChrome_none in Hnone. split; intros w Hsh.
  - unfold Cli.initBrowser. erewrite run_bind; [|reflexivity].
    by rewrite Hsh, Hnone.
  - unfold Tools.getStagehand, Tools.launchAndConnect.
    erewrite run_bind; [|reflexivity]. rewrite Hsh, Hnone. reflexivity.
Qed.

End Discovery.

Lemma no_chrome_fails_fast_witness :
  Cli.initBrowser no_chrome (fresh None)
  = (Throw (Error "Could not find Chrome installation"), fresh None).
Proof.
  apply (proj1 (no_chrome_fails_fast no_chrome (λ _ _, eq_refl))). reflexivity.
Defined.

Lemma last_snoc_event (h : list Event) e : last (h ++ [e]) = Some e.
Proof. apply last_snoc. Qed.

Lemma unready_page_never_ready : page_never_ready unready_page.
Proof. intros h p. simpl. unfold evaluate_fails. by rewrite last_snoc_event. Qed.

Lemma unready_page_only_evaluate : only_evaluate_fails unready_page.
Proof.
  intros h e. simpl. unfold evaluate_fails. rewrite last_snoc_event.
  destruct e; try discriminate. eauto.
Qed.

Lemma getStagehand_page_timeout_witness :
  ∃ e, (Tools.getStagehand unready_page fresh_tools).1 = Throw e.
Proof.
  apply (getStagehand_page_timeout unready_page unready_page_never_ready fresh_tools).
  reflexivity.
Defined.

Lemma initBrowser_ignores_page_timeout_witness :
  ∃ sh, (Cli.initBrowser unready_page (fresh None)).1
        = Ok {| stagehand := Some sh; page := Some (PageOf sh) |} ∧
        page_rounds 30 (PageOf sh) `sublist_of` trace (Cli.initBrowser unready_page (fresh None)).2.
Proof.
  apply (initBrowser_ignores_page_timeout unready_page unready_page_never_ready
           unready_page_only_evaluate (λ _, eq_refl) (fresh None) "/usr/bin/google-chrome");
    reflexivity.
Defined.

Section CloseTwice.
Variable env env' : Env.

Lemma closed_foreign g :
  Cli.chromeProcess (closed g) = None ∨ Cli.weStartedChrome (closed g) = false.
Proof.
  unfold closed.
  destruct (Cli.stagehandInstance g); simpl;
    destruct (Cli.chromeProcess g) eqn:Hc; simpl; auto;
    destruct (Cli.weStartedChrome g) eqn:Hf; simpl; auto.
Qed.

Lemma closed_idempotent g : closed (closed g) = closed g.
Proof.
  unfold closed.
  destruct (Cli.stagehandInstance g) eqn:Hs; simpl;
    destruct (Cli.chromeProcess g) eqn:Hc; simpl; rewrite ?Hs, ?Hc; simpl; try done;
    destruct (Cli.weStartedChrome g) eqn:Hf; simpl; rewrite ?Hs, ?Hc, ?Hf; simpl; done.
Qed.

(** X22. [closeBrowser] can be repeated: a second call, whatever it
    meets, leaves the module's variables as the first left them and sends
    no signal to the handle of a child. *)
Theorem closeBrowser_twice (w : World Cli.Globals) :
  globals (Cli.closeBrowser env' (Cli.closeBrowser env w).2).2
  = globals (Cli.closeBrowser env w).2 ∧
  extends (trace (Cli.closeBrowser env w).2) no_child_kill
    (Cli.closeBrowser env' (Cli.closeBrowser env w).2).2.
Proof.
  split.
  - rewrite !closeBrowser_closed. apply closed_idempotent.
  - apply closeBrowser_no_child_kill. rewrite closeBrowser_closed.
    apply closed_foreign.
Qed.

End CloseTwice.

Section InitBrowserSuccess.
Variable env : Env.

Lemma configureDownloads_last p :
  hoare (λ _, True) (Cli.configureDownloads env p)
    (λ r w, match r with Ok _ => downloads_configured env w | Throw _ => True end).
Proof.
  unfold Cli.configureDownloads.
  do 3 (apply hoare_bind with (R := λ _ _, True);
        [intros w _; by destruct (_ w).1|intros _]).
  apply hoare_emit. intros w _. destruct (throws env _) eqn:Hth; [done|].
  by exists (trace w).
Qed.

(** X23. When [initBrowser] returns a session that it did not hold
    before, the configuration of the downloads was its last call, and that
    call did not fail. *)
Theorem initBrowser_success_configures_downloads (w : World Cli.Globals) s w' :
  Cli.stagehandInstance (globals w) = None →
  Cli.initBrowser env w = (Ok s, w') →
  downloads_configured env w'.
Proof.
  intros Hnone Hrun.
  unfold Cli.initBrowser in Hrun.
  erewrite run_bind in Hrun; [|reflexivity]. rewrite Hnone in Hrun.
  destruct (negb _); [discriminate Hrun|].
  match type of Hrun with
  | ?m w = _ =>
      assert (hoare (λ _, True) m
                (λ r w, match r with
                        | Ok _ => downloads_configured env w
                        | Throw _ => True
                        end)) as H
  end.
  { do 2 (apply hoare_bind with (R := λ _ _, True);
          [intros w0 _; by destruct (_ w0).1|intros ?]).
    unfold Cli.connectStagehand.
    do 5 (apply hoare_bind with (R := λ _ _, True);
          [intros w0 _; by destruct (_ w0).1|intros ?]).
    apply hoare_bind with (R := λ _, downloads_configured env).
    { apply configureDownloads_last. }
    intros _. apply hoare_bind with (R := λ _, downloads_configured env); [by apply hoare_get|].
    intros g'. by apply hoare_ret. }
  specialize (H w I). by rewrite Hrun in H.
Qed.

End InitBrowserSuccess.

Section FlagInvariant.
Variable env : Env.

Lemma child_held_flag w : child_held w → flag_has_child w.
Proof. by intros H _. Qed.

Lemma hoare_of_preserves {G A} (Inv : World G → Prop) (m : M G A) :
  preserves Inv m →
  hoare Inv m (λ r w, match r with Ok _ => Inv w | Throw _ => Inv w end).
Proof. intros Hp w Hw. specialize (Hp w Hw). by destruct (m w).1. Qed.

Lemma launchChrome_flag path dir :
  hoare flag_has_child (Cli.launchChrome env path dir) (λ _, flag_has_child).
Proof.
  unfold Cli.launchChrome.
  apply hoare_bind with (R := λ _, flag_has_child).
  { apply hoare_of_preserves. unfold spawn. repeat preserves_step; by intros []. }
  intros child.
  apply hoare_bind with (R := λ _, child_held).
  { apply hoare_modify. intros w _. by eexists. }
  intros _.
  apply hoare_conseq with (P' := child_held) (Q' := λ _, child_held);
    [|done|intros; by apply child_held_flag].
  change (preserves child_held
            (Cli.storePid env child;;
             chromeReady ← Cli.waitForChrome env 50;
             if chromeReady : bool then mret true
             else throw (Error "Chrome failed to start"))).
  autounfold with prog.
  repeat first [ apply cli_waitForChrome_preserves | preserves_step ]; by intros [].
Qed.

Lemma initBrowser_flag : preserves flag_has_child (Cli.initBrowser env).
Proof.
  unfold Cli.initBrowser, Cli.connectStagehand.
  repeat first [ apply launchChrome_flag
               | apply cli_waitForPage_preserves
               | progress (unfold fetch_ok, console_error, new_Stagehand,
                           Cli.configureDownloads)
               | preserves_step ];
    by intros [].
Qed.

(** X24. The flag [weStartedChrome] is set only while a child handle is
    held: [initBrowser] and [closeBrowser] keep this, whatever they meet,
    and it holds at the start of an invocation. *)
Theorem flag_only_with_child :
  flag_has_child (fresh None) ∧
  (∀ w, flag_has_child w → flag_has_child (Cli.initBrowser env w).2) ∧
  (∀ w, flag_has_child w → flag_has_child (Cli.closeBrowser env w).2).
Proof.
  split; [done|]. split.
  - apply initBrowser_flag.
  - intros w Hw. unfold flag_has_child in *. rewrite closeBrowser_closed. unfold closed.
    destruct (Cli.stagehandInstance (globals w)); simpl;
      destruct (Cli.chromeProcess (globals w)) eqn:Hc; simpl;
      destruct (Cli.weStartedChrome (globals w)) eqn:Hf; simpl; rewrite ?Hc, ?Hf; auto;
      done.
Qed.

End FlagInvariant.

Lemma initBrowser_success_configures_downloads_witness :
  downloads_configured (with_response_ok always_ready quiet_env)
    (Cli.initBrowser (with_response_ok always_ready quiet_env) (fresh None)).2.
Proof.
  destruct (Cli.initBrowser (with_response_ok always_ready quiet_env) (fresh None))
    as [[s|e] w'] eqn:Hrun.
  - exact (initBrowser_success_configures_downloads
             (with_response_ok always_ready quiet_env) (fresh None) s w' eq_refl Hrun).
  - vm_compute in Hrun. discriminate Hrun.
Defined.

Lemma flag_only_with_child_witness :
  flag_has_child (Cli.initBrowser quiet_env (fresh None)).2.
Proof.
  apply (proj1 (proj2 (flag_only_with_child quiet_env)) (fresh None)).
  intros H. discriminate H.
Defined.
